(** * operator-index.py: publish orchestration of OLM catalog index images

    A shallow embedding of [operator-index.py].  The script talks to the host
    through subprocesses ([shell]), the file system ([os.path.islink]) and
    the opm installer; these are gathered in a [world] record, and the
    commands of the script are functions in a small trace-and-exception
    monad.  Logger calls never influence control flow or the subprocesses
    that are started, and are left out; writing a line to standard output
    is taken to succeed. *)

From Stdlib Require Import String Ascii List ZArith Bool Lia.
Import ListNotations.
Open Scope list_scope.
Open Scope string_scope.

(** ** Configuration data (lines 34-78) *)

(** A value read from the YAML file: a string, or something else, of which
    only the name of its Python type matters ([NoneType] for a missing key). *)
Inductive value : Type :=
| Str (s : string)
| NotStr (type_name : string).

Module OperatorBundle.
Record t : Type := mk { name : option string; img : value; tag : value }.
End OperatorBundle.

(** The fields of the index are only ever rendered by [str.format]; they are
    kept as the text that [format] gives for them. *)

Module OperatorIndex.
Record t : Type := mk { img : string; tag : string }.
End OperatorIndex.

Record OperatorIndexSettings : Type := mkSettings {
  bundles : list OperatorBundle.t;
  index : OperatorIndex.t
}.

(** ** Python string helpers *)

(** [s.endswith(suffix)]: some tail of [s] is [suffix]. *)
Fixpoint endswith (s suffix : string) : bool :=
  if String.eqb s suffix then true
  else match s with
       | EmptyString => false
       | String _ s' => endswith s' suffix
       end.

(** [sep.join(parts)]. *)
Definition join (sep : string) (parts : list string) : string :=
  String.concat sep parts.

(** [os.path.join(a, b)] on POSIX. *)
Definition path_join (a b : string) : string :=
  if prefix "/" b then b
  else if (String.eqb a "" || endswith a "/")%bool then a ++ b
  else a ++ "/" ++ b.

(** Truth value of an optional string ([None] and [""] are false). *)
Definition truthy (o : option string) : bool :=
  match o with
  | None => false
  | Some s => negb (String.eqb s "")
  end.

(** ** Effects *)

Inductive exn : Type :=
| RuntimeError (msg : string)
| SystemExit (code : Z)
| ExternalError (what : string)
| ValueError (msg : string)
| OSError (msg : string)
| TypeError (msg : string)
| UnicodeDecodeError (msg : string).

Inductive event : Type :=
| Spawn (cmd : string)          (* subprocess.Popen(shlex.split(cmd)) *)
| Stdout (line : string)         (* print(line) *)
| InstallOpm (version : string) (* install_opm(version) *).

Definition trace := list event.

(** What becomes of a command given to [shell].  On line 192,
    [shlex.split] may raise [ValueError] (an unbalanced quote, a trailing
    backslash) and [Popen] may raise [OSError] (no such executable, no
    permission): then no process exists.  Otherwise the process is started
    and line 196 yields its output line by line, each decoded and
    right-stripped by [utf8ify]: either all of it, followed by the return
    code, or the lines up to one that is not UTF-8, at which [utf8ify]
    raises [UnicodeDecodeError]. *)
Inductive launch : Type :=
| Started (lines : list string) (code : Z)
| Garbled (lines : list string) (msg : string)
| NotSplit (msg : string)
| NotSpawned (msg : string).

(** The exception of line 192, if any. *)
Definition launch_error (l : launch) : option exn :=
  match l with
  | Started _ _ | Garbled _ _ => None
  | NotSplit msg => Some (ValueError msg)
  | NotSpawned msg => Some (OSError msg)
  end.

(** The lines that line 196 yields. *)
Definition yielded (l : launch) : list string :=
  match l with
  | Started lines _ | Garbled lines _ => lines
  | NotSplit _ | NotSpawned _ => []
  end.

(** The exception of [utf8ify] after those lines, if any. *)
Definition decode_error (l : launch) : option exn :=
  match l with
  | Garbled _ msg => Some (UnicodeDecodeError msg)
  | _ => None
  end.

(** How the iteration over the output ends: the output is exhausted and
    [proc.wait()] gives the return code, or [utf8ify] raises. *)
Inductive ending : Type :=
| Exhausted (code : Z)
| Broken (e : exn).

(** The host.  [popen h cmd] is what becomes of [cmd] when it is launched
    after the events [h]; [islink] is [os.path.islink]; [install] is the
    outcome of the installer step; [executable] says which paths name an
    executable file (the script never asks: it is what [which] goes by). *)
Record world : Type := mkWorld {
  HOME : string;
  popen : trace -> string -> launch;
  islink : string -> bool;
  install : trace -> string -> option exn;
  executable : string -> bool
}.

Inductive outcome (A : Type) : Type :=
| Ok (a : A)
| Raise (e : exn).
Arguments Ok {A} a.
Arguments Raise {A} e.

Definition M (A : Type) : Type := trace -> outcome A * trace.

Definition ret {A} (a : A) : M A := fun h => (Ok a, h).

Definition bind {A B} (m : M A) (k : A -> M B) : M B :=
  fun h => match m h with
           | (Ok a, h') => k a h'
           | (Raise e, h') => (Raise e, h')
           end.

Definition raise {A} (e : exn) : M A := fun h => (Raise e, h).

Definition emit (e : event) : M unit := fun h => (Ok tt, (h ++ [e])%list).

Notation "x <- m ;; k" := (bind m (fun x => k))
  (at level 61, m at next level, right associativity).
Notation "m ;;; k" := (bind m (fun _ => k))
  (at level 61, right associativity).

(** [for x in xs: body(x)]. *)
Fixpoint for_each {A} (xs : list A) (body : A -> M unit) : M unit :=
  match xs with
  | [] => ret tt
  | x :: rest => body x ;;; for_each rest body
  end.

Definition print (line : string) : M unit := emit (Stdout line).

Definition spawned_of (e : event) : list string :=
  match e with
  | Spawn c => [c]
  | _ => []
  end.

(** The commands started as subprocesses, in order. *)
Definition spawned (h : trace) : list string := flat_map spawned_of h.

Definition is_install (e : event) : bool :=
  match e with
  | InstallOpm _ => true
  | _ => false
  end.

(** ** [shell] (lines 186-204)

    [shell] is a generator function: calling it only builds a suspended
    generator.  The subprocess is started when the generator is first
    advanced, and the return code is examined when it is exhausted. *)

Record generator : Type := mkGen { gen_cmd : string; gen_fail : bool }.

Definition shell (cmd : string) (fail : bool) : generator := mkGen cmd fail.

Section Script.

Variable w : world.

(** First [next()]: lines 191-194, where line 192 may raise before any
    process exists; otherwise the lines that line 196 will yield are
    returned together with the way the iteration will end. *)
Definition start (g : generator) : M (list string * ending) :=
  fun h => match popen w h (gen_cmd g) with
           | Started lines code =>
               (Ok (lines, Exhausted code), (h ++ [Spawn (gen_cmd g)])%list)
           | Garbled lines msg =>
               (Ok (lines, Broken (UnicodeDecodeError msg)),
                (h ++ [Spawn (gen_cmd g)])%list)
           | NotSplit msg => (Raise (ValueError msg), h)
           | NotSpawned msg => (Raise (OSError msg), h)
           end.

(** The end of the iteration: [utf8ify] raises on line 196, or the output
    is exhausted and lines 199-204 look at the return code. *)
Definition finish (g : generator) (e : ending) : M unit :=
  match e with
  | Broken err => raise err
  | Exhausted code =>
      if (gen_fail g && negb (code =? 0)%Z)%bool then raise (SystemExit code)
      else ret tt
  end.

(** [for line in g: body(line)], run to exhaustion. *)
Definition for_in (g : generator) (body : string -> M unit) : M unit :=
  r <- start g ;;
  for_each (fst r) body ;;;
  finish g (snd r).

(** [[line for line in g]]. *)
Definition collect (g : generator) : M (list string) :=
  r <- start g ;;
  finish g (snd r) ;;;
  ret (fst r).

(** ** [_determine_runtime] (lines 116-130) *)

(** The loop body's test, lines 124 and 128. *)
Definition accepts (candidate line : string) : bool :=
  (endswith line ("/" ++ candidate) && negb (islink w line))%bool.

(** [for line in ...: if accepts: return candidate]; [true] when the loop
    returns, [false] when it runs off the end. *)
Fixpoint scan (candidate : string) (lines : list string) : bool :=
  match lines with
  | [] => false
  | line :: rest => if accepts candidate line then true
                    else scan candidate rest
  end.

Definition _determine_runtime : M string :=
  let g := shell "which docker" false in
  r <- start g ;;
  if scan "docker" (fst r) then ret "docker"
  else
    finish g (snd r) ;;;
    let g := shell "which podman" false in
    r <- start g ;;
    if scan "podman" (fst r) then ret "podman"
    else
      finish g (snd r) ;;;
      raise (RuntimeError "Unable to identify a container runtime!").

(** ** [generate_command_line] (lines 96-114) *)

(** [":".join([bundle.img, bundle.tag])] (line 102): [str.join] raises
    [TypeError] at the first item that is not a string. *)
Definition bundle_ref (bundle : OperatorBundle.t) : string + string :=
  match OperatorBundle.img bundle, OperatorBundle.tag bundle with
  | Str img, Str tag => inl (join ":" [img; tag])
  | NotStr ty, _ =>
      inr ("sequence item 0: expected str instance, " ++ ty ++ " found")
  | Str _, NotStr ty =>
      inr ("sequence item 1: expected str instance, " ++ ty ++ " found")
  end.

(** The list comprehension of lines 101-104, stopped by the first error. *)
Fixpoint bundle_refs (bs : list OperatorBundle.t) : list string + string :=
  match bs with
  | [] => inl []
  | bundle :: rest =>
      match bundle_ref bundle with
      | inr msg => inr msg
      | inl ref =>
          match bundle_refs rest with
          | inr msg => inr msg
          | inl refs => inl (ref :: refs)
          end
      end
  end.

Definition generate_command_line (self : OperatorIndexSettings) : M string :=
  bundles <- match bundle_refs (bundles self) with
             | inl refs => ret (join "," refs)
             | inr msg => raise (TypeError msg)
             end ;;
  let index :=
    OperatorIndex.img (index self) ++ ":" ++ OperatorIndex.tag (index self) in
  runtime <- _determine_runtime ;;
  ret (" index add --build-tool " ++ runtime ++
       " --bundles " ++ bundles ++ " --tag " ++ index).

(** ** [config] (lines 26-29) and [install_opm] (lines 207-246)

    The installer downloads a binary and links it into place; from the
    orchestration's side it is one external step that either completes or
    raises. *)

Definition opm_path : string :=
  path_join (path_join (path_join (HOME w) ".local") "bin") "opm".

Definition install_opm (version : string) : M unit :=
  fun h => match install w h version with
           | None => (Ok tt, (h ++ [InstallOpm version])%list)
           | Some e => (Raise e, (h ++ [InstallOpm version])%list)
           end.

(** [load_settings()] re-reads the same file on every call; the parsed
    settings are a parameter of the run. *)
Variable settings : OperatorIndexSettings.

(** ** [do_build] (lines 286-307) *)

Definition do_build (tag_extension : option string) (opm_version : string)
  : M unit :=
  install_opm opm_version ;;;
  build_cmd <- (args <- generate_command_line settings ;;
                ret (opm_path ++ args)) ;;
  let build_cmd :=
    match tag_extension with
    | Some ext => build_cmd ++ "-" ++ ext
    | None => build_cmd
    end in
  for_in (shell build_cmd true) print.

(** ** [push] (lines 310-395) *)

(** Lines 341-346: the search for the extended tag. *)
Fixpoint find_extended (built_tag ext : string) (images : list string)
  : bool * string :=
  match images with
  | [] => (false, built_tag)
  | line :: rest =>
      if String.eqb line (built_tag ++ "-" ++ ext)
      then (true, built_tag ++ "-" ++ ext)
      else find_extended built_tag ext rest
  end.

(** Lines 350-354: the search for the tag as it stands. *)
Fixpoint find_plain (built_tag : string) (images : list string) : bool :=
  match images with
  | [] => false
  | line :: rest =>
      if String.eqb line built_tag then true
      else find_plain built_tag rest
  end.

(** Lines 334-354, on the listed images: [(found_image, built_tag)]. *)
Definition resolve (built_tag : string) (tag_extension : option string)
           (images : list string) : bool * string :=
  let '(found_image, built_tag) :=
    match tag_extension with
    | Some ext => find_extended built_tag ext images
    | None => (false, built_tag)
    end in
  if negb found_image
  then (find_plain built_tag images, built_tag)
  else (found_image, built_tag).

(** Lines 356-377: build, fail or retag; the result is the tag to push. *)
Definition acquire (runtime : string) (tag_extension : option string)
           (build : bool) (found_image : bool) (built_tag : string)
  : M string :=
  if negb found_image then
    if build then
      do_build tag_extension "latest" ;;;
      match tag_extension with
      | Some ext => ret (built_tag ++ "-" ++ ext)
      | None => ret built_tag
      end
    else
      raise (RuntimeError "Unable to find the appropriate image to push.")
  else
    match tag_extension with
    | Some ext =>
        if (truthy tag_extension && negb (endswith built_tag ("-" ++ ext)))%bool
        then
          (* line 373: the generator is built and dropped, never advanced *)
          let _unused :=
            shell (runtime ++ " tag " ++ built_tag ++ " " ++
                   built_tag ++ "-" ++ ext) true in
          ret (built_tag ++ "-" ++ ext)
        else ret built_tag
    | None => ret built_tag
    end.

(** Lines 379-381. *)
Definition extra_tags_of (extra_tag : list string) : list string :=
  map (fun tag => OperatorIndex.img (index settings) ++ ":" ++ tag) extra_tag.

(** Lines 385-387. *)
Definition tag_cmds_of (runtime built_tag : string)
           (extra_tags : list string) : list string :=
  map (fun tag => runtime ++ " tag " ++ built_tag ++ " " ++ tag) extra_tags.

(** Line 392. *)
Definition push_cmds_of (runtime built_tag : string)
           (extra_tags : list string) : list string :=
  map (fun tag => runtime ++ " push " ++ tag) (extra_tags ++ [built_tag])%list.

(** The loop of lines 388-390 and again of lines 393-395:
    [for cmd in cmds: for line in shell(cmd): print(line)]. *)
Definition run_all (cmds : list string) : M unit :=
  for_each cmds (fun cmd => for_in (shell cmd true) print).

(** Lines 379-395: tag and push. *)
Definition publish (runtime built_tag : string) (extra_tag : list string)
  : M unit :=
  let extra_tags := extra_tags_of extra_tag in
  let tag_cmds := tag_cmds_of runtime built_tag extra_tags in
  run_all tag_cmds ;;;
  let push_cmds := push_cmds_of runtime built_tag extra_tags in
  run_all push_cmds.

Definition images_cmd (runtime : string) : string :=
  runtime ++ " images --format '{{.Repository}}:{{.Tag}}'".

Definition configured_tag : string :=
  OperatorIndex.img (index settings) ++ ":" ++ OperatorIndex.tag (index settings).

(** Lines 324-377: everything up to the tag to push. *)
Definition prepare (tag_extension : option string) (build : bool)
  : M (string * string) :=
  runtime <- _determine_runtime ;;
  let built_tag := configured_tag in
  images <- collect (shell (images_cmd runtime) true) ;;
  let '(found_image, built_tag) := resolve built_tag tag_extension images in
  built_tag <- acquire runtime tag_extension build found_image built_tag ;;
  ret (runtime, built_tag).

Definition push (tag_extension : option string) (extra_tag : list string)
           (build : bool) : M unit :=
  rb <- prepare tag_extension build ;;
  publish (fst rb) (snd rb) extra_tag.

End Script.

(** ** Vocabulary of the statements *)

(** A candidate runtime is accepted on the output of [which]: some line is a
    path whose last component is the candidate and which is not a symbolic
    link. *)
Definition accepted (w : world) (candidate : string) (lines : list string)
  : Prop :=
  exists line, In line lines /\
               (exists dir, line = dir ++ "/" ++ candidate) /\
               islink w line = false.

(** The contract of [which] on a host: a line it prints that ends with the
    name looked up is the path of an executable file. *)
Definition which_reports_executables (w : world) : Prop :=
  forall h candidate line,
    In line (yielded (popen w h ("which " ++ candidate))) ->
    (exists dir, line = dir ++ "/" ++ candidate) ->
    executable w line = true.

(** How a command run through [shell] with [fail] set can end badly: it
    exits with a code other than 0, line 192 raises, or its output cannot
    be decoded. *)
Definition command_failure (e : exn) : Prop :=
  (exists code, code <> 0%Z /\ e = SystemExit code) \/
  (exists msg, e = ValueError msg) \/
  (exists msg, e = OSError msg) \/
  (exists msg, e = UnicodeDecodeError msg).

(** A launch with its return code forgotten. *)
Definition without_code (l : launch) : launch :=
  match l with
  | Started lines _ => Started lines 0
  | other => other
  end.

(** The error raised on line 130. *)
Definition NoRuntimeFound : exn :=
  RuntimeError "Unable to identify a container runtime!".

(** The error raised on line 367. *)
Definition ImageNotFound : exn :=
  RuntimeError "Unable to find the appropriate image to push.".

(** [cmd] is a registry push of the runtime. *)
Definition is_push (runtime cmd : string) : bool :=
  prefix (runtime ++ " push ") cmd.

(** The build subcommand was entered: [do_build] starts with [install_opm]. *)
Definition build_invoked (h : trace) : bool := existsb is_install h.

(** ** Example hosts *)

(** Whether the reference [ref] names a local image once the commands of [h]
    have run on a host that started with [images0]: it was there from the
    start, or it is the last argument of an earlier command that was not a
    push (the target of a [tag], or of the builder's [--tag]). *)
Definition has_image (images0 : list string) (h : trace) (ref : string) : bool :=
  (existsb (String.eqb ref) images0 ||
   existsb (fun c => negb (is_push "docker" c) && endswith c (" " ++ ref))
           (spawned h))%bool.

(** A host with docker installed as a plain binary and no podman.  A push or
    a tag of a reference that names no local image exits with code 1. *)
Definition docker_host (images0 : list string) : world :=
  {| HOME := "/root";
     popen := fun h cmd =>
       if String.eqb cmd "which docker" then Started ["/usr/bin/docker"] 0
       else if String.eqb cmd "which podman" then Started [] 1
       else if String.eqb cmd "docker images --format '{{.Repository}}:{{.Tag}}'"
       then Started images0 0
       else if is_push "docker" cmd
       then if has_image images0 h (substring 12 (String.length cmd) cmd)
            then Started [] 0
            else Started ["An image does not exist locally with the tag: " ++
                          substring 12 (String.length cmd) cmd] 1
       else if prefix "docker tag " cmd
       then let args := substring 11 (String.length cmd) cmd in
            match String.index 0 " " args with
            | Some n => if has_image images0 h (substring 0 n args)
                        then Started [] 0
                        else Started ["Error response from daemon: No such image: " ++
                                      substring 0 n args] 1
            | None => Started ["docker tag requires exactly 2 arguments."] 1
            end
       else Started [] 0;
     islink := fun _ => false;
     install := fun _ _ => None;
     executable := fun path => String.eqb path "/usr/bin/docker" |}.

(** A host where [docker] is a symbolic link (the podman-docker shim) and
    podman is the real binary. *)
Definition podman_host (images0 : list string) : world :=
  {| HOME := "/home/ci";
     popen := fun h cmd =>
       if String.eqb cmd "which docker" then Started ["/usr/bin/docker"] 0
       else if String.eqb cmd "which podman" then Started ["/usr/bin/podman"] 0
       else if String.eqb cmd "podman images --format '{{.Repository}}:{{.Tag}}'"
       then Started images0 0
       else Started [] 0;
     islink := fun path => String.eqb path "/usr/bin/docker";
     install := fun _ _ => None;
     executable := fun path =>
       (String.eqb path "/usr/bin/docker" || String.eqb path "/usr/bin/podman")%bool |}.

(** A host with neither runtime: [which] prints its complaint and fails. *)
Definition bare_host : world :=
  {| HOME := "/root";
     popen := fun h cmd =>
       if String.eqb cmd "which docker"
       then Started ["which: no docker in (/usr/local/bin:/usr/bin)"] 1
       else if String.eqb cmd "which podman"
       then Started ["which: no podman in (/usr/local/bin:/usr/bin)"] 1
       else NotSpawned "[Errno 2] No such file or directory";
     islink := fun _ => false;
     install := fun _ _ => None;
     executable := fun _ => false |}.

(** A minimal image: docker is installed, but there is no [which]. *)
Definition no_which_host : world :=
  {| HOME := "/root";
     popen := fun h cmd =>
       if prefix "which " cmd
       then NotSpawned "[Errno 2] No such file or directory: 'which'"
       else Started [] 0;
     islink := fun _ => false;
     install := fun _ _ => None;
     executable := fun path => String.eqb path "/usr/bin/docker" |}.

Definition settings_of (bundles : list OperatorBundle.t) (img tag : string)
  : OperatorIndexSettings :=
  mkSettings bundles (OperatorIndex.mk img tag).

(** The configuration of the scenarios: one bundle [a:1], index [idx:v1]. *)
Definition idx_v1 : OperatorIndexSettings :=
  settings_of [OperatorBundle.mk (Some "a") (Str "a") (Str "1")] "idx" "v1".

(** The same with an index tag that already ends in [-ci]. *)
Definition idx_v1_ci : OperatorIndexSettings :=
  settings_of [OperatorBundle.mk (Some "a") (Str "a") (Str "1")] "idx" "v1-ci".

(** ** [make_logger] (lines 133-171)

    The named logger is a process-wide object: its level and its list of
    handlers.  Each handler has a kind and a level.  Whether [/dev/log]
    exists is asked of the host at each call. *)

Inductive handler_kind : Type := StreamHandler | SysLogHandler.

Record handler : Type := mkHandler {
  handler_kind_of : handler_kind;
  handler_level : Z
}.

Record logger : Type := mkLogger {
  logger_level : Z;
  handlers : list handler
}.

(** [logging.DEBUG] and [logging.INFO]. *)
Definition DEBUG : Z := 10.
Definition INFO : Z := 20.

(** What [logging.getLogger] gives for a name not seen before. *)
Definition fresh_logger : logger := mkLogger 0 [].

(** Lines 151 and 169. *)
Definition verbosity_level (verbosity : Z) : Z := 40 - (Z.min 3 verbosity * 10).

(** [handlers[0].setLevel(level)]. *)
Definition set_first_level (level : Z) (hs : list handler) : list handler :=
  match hs with
  | [] => []
  | h :: rest => mkHandler (handler_kind_of h) level :: rest
  end.

Definition make_logger (dev_log_exists : bool) (verbosity : option Z)
           (lg : logger) : logger :=
  let lg := mkLogger DEBUG (handlers lg) in
  if (List.length (handlers lg) =? 0)%nat then
    let stderr :=
      mkHandler StreamHandler
                match verbosity with
                | Some v => verbosity_level v
                | None => 40%Z
                end in
    let lg := mkLogger (logger_level lg) (handlers lg ++ [stderr])%list in
    if dev_log_exists then
      let syslog := mkHandler SysLogHandler INFO in
      mkLogger (logger_level lg) (handlers lg ++ [syslog])%list
    else lg
  else
    match verbosity with
    | Some v =>
        mkLogger (logger_level lg)
                 (set_first_level (verbosity_level v) (handlers lg))
    | None => lg
    end.

(** A process calls [make_logger] several times (at import, in [main], in the
    subcommand); each call comes with the host's answer about [/dev/log]. *)
Definition make_logger_calls (calls : list (bool * option Z)) : logger :=
  fold_left (fun lg call => make_logger (fst call) (snd call) lg)
            calls fresh_logger.

(** The verbosity of the last call that gave one. *)
Fixpoint last_verbosity (calls : list (bool * option Z)) : option Z :=
  match calls with
  | [] => None
  | call :: rest =>
      match last_verbosity rest with
      | Some v => Some v
      | None => snd call
      end
  end.

(** ** [os.path.dirname] on POSIX *)

Definition is_slash (c : ascii) : bool := Ascii.eqb c "/"%char.

Fixpoint contains_slash (p : string) : bool :=
  match p with
  | EmptyString => false
  | String c p' => (is_slash c || contains_slash p')%bool
  end.

Fixpoint all_slashes (p : string) : bool :=
  match p with
  | EmptyString => true
  | String c p' => (is_slash c && all_slashes p')%bool
  end.

(** [p[:p.rfind('/') + 1]]. *)
Fixpoint upto_last_slash (p : string) : string :=
  match p with
  | EmptyString => EmptyString
  | String c p' =>
      if contains_slash p' then String c (upto_last_slash p')
      else if is_slash c then String c EmptyString
      else EmptyString
  end.

(** [s.rstrip('/')]. *)
Fixpoint rstrip_slashes (s : string) : string :=
  match s with
  | EmptyString => EmptyString
  | String c s' =>
      match rstrip_slashes s' with
      | EmptyString => if is_slash c then EmptyString else String c EmptyString
      | r => String c r
      end
  end.

Definition dirname (p : string) : string :=
  let head := upto_last_slash p in
  if (negb (String.eqb head "") && negb (all_slashes head))%bool
  then rstrip_slashes head
  else head.

(** ** [install_opm] step by step (lines 207-246)

    The installer as the sequence of file-system and network operations it
    performs.  The host answers the tests, delivers what is fetched, and
    decides which operations raise.  The clean-up of the root logger on
    lines 222-224 touches no file and is left out. *)

Module Installer.

Inductive op : Type :=
| IsDir (path : string)                 (* os.path.isdir *)
| Mkdir (path : string)                 (* os.mkdir *)
| Latest (repo : string)                (* lastversion.latest *)
| PathExists (path : string)            (* os.path.exists *)
| Get (url : string)                    (* requests.get *)
| WriteFile (path content : string)     (* open(path, "wb") ... f.write *)
| Chmod (path : string) (mode : Z)      (* os.chmod *)
| IsLink (path : string)                (* os.path.islink *)
| Remove (path : string)                (* os.remove *)
| Symlink (src dst : string)            (* os.symlink *).

Inductive error : Type :=
| UnboundLocalError (name : string)
| Failed (what : op).

(** The host: [test] answers [isdir], [exists] and [islink]; [latest] is
    [str] of what [lastversion.latest] returns; [content] is [r.content];
    [refuses] says that an operation raises.  All may depend on the
    operations done so far. *)
Record host : Type := mkHost {
  test : list op -> op -> bool;
  latest : list op -> string;
  content : list op -> string -> string;
  refuses : list op -> op -> bool
}.

Inductive result (A : Type) : Type :=
| Done (a : A)
| Fail (e : error).
Arguments Done {A} a.
Arguments Fail {A} e.

Definition I (A : Type) : Type := list op -> result A * list op.

Definition done {A} (a : A) : I A := fun h => (Done a, h).

Definition fail {A} (e : error) : I A := fun h => (Fail e, h).

Definition andthen {A B} (m : I A) (k : A -> I B) : I B :=
  fun h => match m h with
           | (Done a, h') => k a h'
           | (Fail e, h') => (Fail e, h')
           end.

Notation "x <~ m ;; k" := (andthen m (fun x => k))
  (at level 61, m at next level, right associativity).
Notation "m ~> k" := (andthen m (fun _ => k))
  (at level 61, right associativity).

Definition opm_url : string :=
  "https://github.com/operator-framework/operator-registry/releases/download/v".

Section Steps.

Variable w : world.
Variable fs : host.

(** A test: never raises. *)
Definition query (o : op) : I bool :=
  fun h => (Done (test fs h o), (h ++ [o])%list).

(** An operation for its effect: completes or raises. *)
Definition act (o : op) : I unit :=
  fun h => if refuses fs h o then (Fail (Failed o), (h ++ [o])%list)
           else (Done tt, (h ++ [o])%list).

Definition fetch_latest (repo : string) : I string :=
  fun h => if refuses fs h (Latest repo)
           then (Fail (Failed (Latest repo)), (h ++ [Latest repo])%list)
           else (Done (latest fs h), (h ++ [Latest repo])%list).

Definition get (url : string) : I string :=
  fun h => if refuses fs h (Get url)
           then (Fail (Failed (Get url)), (h ++ [Get url])%list)
           else (Done (content fs h url), (h ++ [Get url])%list).

(** [version] is the parameter, rebound on line 225; [latest_opm] is a
    local that is bound only on line 219. *)
Definition install_opm (version : string) : I unit :=
  let opm_path := opm_path w in
  isdir <~ query (IsDir (dirname opm_path)) ;;
  (if negb isdir then act (Mkdir (dirname opm_path)) else done tt) ~>
  locals <~ (if String.eqb version "latest"
             then latest_opm <~ fetch_latest "operator-framework/operator-registry" ;;
                  done (latest_opm, Some latest_opm)
             else done (version, None)) ;;
  let version := fst locals in
  match snd locals with
  | None => fail (UnboundLocalError "latest_opm")
  | Some latest_opm =>
      present <~ query (PathExists (opm_path ++ "-" ++ latest_opm)) ;;
      if negb present then
        r_content <~ get (opm_url ++ version ++ "/linux-amd64-opm") ;;
        act (WriteFile (opm_path ++ "-" ++ version) r_content) ~>
        act (Chmod (opm_path ++ "-" ++ version) 360) ~>
        islink <~ query (IsLink opm_path) ;;
        (if islink then act (Remove opm_path)
         else present <~ query (PathExists opm_path) ;;
              if present then act (Remove opm_path) else done tt) ~>
        act (Symlink (opm_path ++ "-" ++ version) opm_path)
      else done tt
  end.

End Steps.

(** Operations that change the file system. *)
Definition changes (o : op) : bool :=
  match o with
  | Mkdir _ | WriteFile _ _ | Chmod _ _ | Remove _ | Symlink _ _ => true
  | _ => false
  end.

(** A host on which [~/.local/bin] exists, release [1.26.4] is the latest and
    is not installed yet, and [opm] is a link left by an earlier install. *)
Definition fresh_host : host :=
  {| test := fun h o =>
       match o with
       | IsDir _ => true
       | PathExists p => String.eqb p "/root/.local/bin/opm"
       | IsLink p => String.eqb p "/root/.local/bin/opm"
       | _ => false
       end;
     latest := fun _ => "1.26.4";
     content := fun _ url => "ELF:" ++ url;
     refuses := fun _ _ => false |}.

(** The same host after that release was installed. *)
Definition installed_host : host :=
  {| test := fun h o =>
       match o with
       | IsDir _ => true
       | PathExists p =>
           (String.eqb p "/root/.local/bin/opm" ||
            String.eqb p "/root/.local/bin/opm-1.26.4")%bool
       | IsLink p => String.eqb p "/root/.local/bin/opm"
       | _ => false
       end;
     latest := fun _ => "1.26.4";
     content := fun _ url => "ELF:" ++ url;
     refuses := fun _ _ => false |}.

(** A host without network: the release lookup and every download raise. *)
Definition offline_host : host :=
  {| test := fun h o =>
       match o with
       | IsDir _ => true
       | _ => false
       end;
     latest := fun _ => "";
     content := fun _ _ => "";
     refuses := fun _ o =>
       match o with
       | Latest _ | Get _ => true
       | _ => false
       end |}.

End Installer.

(** A host whose installer step is [Installer.install_opm] run on [fs]; an
    error of the installer is reported by its Python name. *)
Definition installer_error_name (e : Installer.error) : string :=
  match e with
  | Installer.UnboundLocalError name =>
      "UnboundLocalError: " ++ name
  | Installer.Failed (Installer.Latest _) => "Exception"
  | Installer.Failed _ => "OSError"
  end.

Definition with_installer (w : world) (fs : Installer.host) : world :=
  {| HOME := HOME w;
     popen := popen w;
     islink := islink w;
     install := fun _ version =>
       match fst (Installer.install_opm w fs version []) with
       | Installer.Done _ => None
       | Installer.Fail e => Some (ExternalError (installer_error_name e))
       end;
     executable := executable w |}.

(** * Properties *)

(** ** String helpers *)

Lemma endswith_refl (s : string) : endswith s s = true.
Proof. destruct s; cbn [endswith]; now rewrite String.eqb_refl. Qed.

Lemma endswith_app (p suffix : string) : endswith (p ++ suffix) suffix = true.
Proof.
  induction p as [|c p IH]; cbn [append endswith].
  - apply endswith_refl.
  - destruct (String.eqb (String c (p ++ suffix)) suffix);
      [reflexivity | exact IH].
Qed.

Lemma endswith_inv (s suffix : string) :
  endswith s suffix = true -> exists p, s = p ++ suffix.
Proof.
  induction s as [|c s IH]; cbn [endswith].
  - destruct (String.eqb_spec "" suffix) as [<-|_]; [|discriminate].
    intros _. now exists "".
  - destruct (String.eqb_spec (String c s) suffix) as [<-|_].
    + intros _. now exists "".
    + intros H. destruct (IH H) as [p ->]. now exists (String c p).
Qed.

(** ** The two searches *)

Lemma find_plain_true (built_tag : string) (images : list string) :
  find_plain built_tag images = true <-> In built_tag images.
Proof.
  induction images as [|line rest IH]; simpl.
  - split; [discriminate | tauto].
  - destruct (String.eqb_spec line built_tag) as [->|Hne].
    + split; auto.
    + rewrite IH. split; [auto | intros [H|H]; [contradiction | exact H]].
Qed.

Lemma find_plain_false (built_tag : string) (images : list string) :
  find_plain built_tag images = false <-> ~ In built_tag images.
Proof.
  rewrite <- find_plain_true. destruct (find_plain built_tag images);
    split; congruence.
Qed.

Lemma find_extended_hit (built_tag ext : string) (images : list string) :
  In (built_tag ++ "-" ++ ext) images ->
  find_extended built_tag ext images = (true, built_tag ++ "-" ++ ext).
Proof.
  induction images as [|line rest IH]; cbn [find_extended In]; [tauto|].
  intros [->|H].
  - now rewrite String.eqb_refl.
  - destruct (String.eqb line (built_tag ++ "-" ++ ext));
      [reflexivity | exact (IH H)].
Qed.

Lemma find_extended_miss (built_tag ext : string) (images : list string) :
  ~ In (built_tag ++ "-" ++ ext) images ->
  find_extended built_tag ext images = (false, built_tag).
Proof.
  induction images as [|line rest IH]; cbn [find_extended In]; [reflexivity|].
  intros H. destruct (String.eqb_spec line (built_tag ++ "-" ++ ext)) as [->|_].
  - exfalso. apply H. now left.
  - apply IH. intros H'. apply H. now right.
Qed.

Lemma resolve_not_found (B : string) (E : option string) (L : list string) :
  ~ In B L ->
  (forall ext, E = Some ext -> ~ In (B ++ "-" ++ ext) L) ->
  resolve B E L = (false, B).
Proof.
  intros HB HE. unfold resolve. destruct E as [ext|].
  - rewrite (find_extended_miss _ _ _ (HE ext eq_refl)). cbn [negb].
    now apply find_plain_false in HB as ->.
  - now apply find_plain_false in HB as ->.
Qed.

Lemma resolve_extended_hit (B E : string) (L : list string) :
  In (B ++ "-" ++ E) L -> resolve B (Some E) L = (true, B ++ "-" ++ E).
Proof. intros H. unfold resolve. now rewrite (find_extended_hit _ _ _ H). Qed.

Lemma resolve_plain_fallback (B E : string) (L : list string) :
  ~ In (B ++ "-" ++ E) L -> In B L -> resolve B (Some E) L = (true, B).
Proof.
  intros Hext HB. unfold resolve. rewrite (find_extended_miss _ _ _ Hext).
  cbn [negb]. now apply find_plain_true in HB as ->.
Qed.

(** C1: with an extension [E], an image named ["{B}-{E}"] in the list makes
    the resolution answer found with that extended tag, whether or not [B]
    is listed as well; when the extended name is absent and [B] is listed,
    the answer is found with [B]. *)
Theorem resolve_extension_precedence (B E : string) (L : list string) :
  (In (B ++ "-" ++ E) L -> resolve B (Some E) L = (true, B ++ "-" ++ E)) /\
  (~ In (B ++ "-" ++ E) L -> In B L -> resolve B (Some E) L = (true, B)).
Proof.
  split; [apply resolve_extended_hit | apply resolve_plain_fallback].
Qed.

Lemma resolve_extension_precedence_witness :
  resolve "idx:v1" (Some "ci") ["other:1"; "idx:v1"; "idx:v1-ci"]
    = (true, "idx:v1-ci") /\
  resolve "idx:v1" (Some "ci") ["other:1"; "idx:v1"] = (true, "idx:v1").
Proof.
  split.
  - apply (resolve_extension_precedence "idx:v1" "ci"
             ["other:1"; "idx:v1"; "idx:v1-ci"]).
    simpl. auto.
  - apply (resolve_extension_precedence "idx:v1" "ci" ["other:1"; "idx:v1"]).
    + simpl. intros [H|[H|[]]]; discriminate H.
    + simpl. auto.
Defined.

(** C6: without an extension the resolution answers found exactly when [B]
    itself is an element of the image list, and the resolved tag is always
    [B]; membership is equality of whole strings, so a name that merely
    starts with [B] or differs in case is no match. *)
Theorem resolve_no_extension (B : string) (L : list string) :
  (fst (resolve B None L) = true <-> In B L) /\
  snd (resolve B None L) = B /\
  (forall x, x <> "" -> ~ In B L -> fst (resolve B None ((B ++ x) :: L)) = false).
Proof.
  unfold resolve; simpl. split; [apply find_plain_true|]. split; [reflexivity|].
  intros x Hx HB.
  destruct (String.eqb_spec (B ++ x) B) as [Heq|_].
  - exfalso. apply Hx. clear -Heq. induction B as [|c B IH]; simpl in Heq.
    + exact Heq.
    + injection Heq as Heq. auto.
  - now apply find_plain_false.
Qed.

Lemma resolve_no_extension_witness :
  fst (resolve "idx:v1" None ["idx:v10"; "idx:v"; "IDX:v1"]) = false /\
  fst (resolve "idx:v1" None ["idx:v10"; "idx:v1"]) = true.
Proof.
  split.
  - apply (proj2 (proj2 (resolve_no_extension "idx:v1" ["idx:v"; "IDX:v1"])) "0").
    + discriminate.
    + simpl. intros [H|[H|[]]]; discriminate H.
  - apply (proj1 (resolve_no_extension "idx:v1" ["idx:v10"; "idx:v1"])).
    simpl. auto.
Defined.



(** ** Runtime detection *)

Section Detection.

Variable w : world.

Lemma accepts_true (candidate line : string) :
  accepts w candidate line = true <->
  (exists dir, line = dir ++ "/" ++ candidate) /\ islink w line = false.
Proof.
  unfold accepts. rewrite andb_true_iff, negb_true_iff. split.
  - intros [H1 H2]. split; [exact (endswith_inv _ _ H1) | exact H2].
  - intros [[dir ->] H2]. split; [apply endswith_app | exact H2].
Qed.

Lemma scan_true (candidate : string) (lines : list string) :
  scan w candidate lines = true <-> accepted w candidate lines.
Proof.
  unfold accepted. induction lines as [|line rest IH]; cbn [scan In].
  - split; [discriminate | intros (l & [] & _)].
  - destruct (accepts w candidate line) eqn:Hacc.
    + split; [|reflexivity]. intros _. apply accepts_true in Hacc.
      exists line. tauto.
    + rewrite IH. split.
      * intros (l & Hin & H). exists l. tauto.
      * intros (l & [<-|Hin] & H).
        -- apply accepts_true in H. congruence.
        -- exists l. tauto.
Qed.

Lemma scan_false (candidate : string) (lines : list string) :
  scan w candidate lines = false <-> ~ accepted w candidate lines.
Proof.
  rewrite <- scan_true. destruct (scan w candidate lines); split; congruence.
Qed.

Lemma determine_runtime_run (h : trace) :
  let docker := popen w h "which docker" in
  let h1 := (h ++ [Spawn "which docker"])%list in
  let podman := popen w h1 "which podman" in
  let h2 := (h1 ++ [Spawn "which podman"])%list in
  _determine_runtime w h =
  match launch_error docker with
  | Some e => (Raise e, h)
  | None =>
      if scan w "docker" (yielded docker) then (Ok "docker", h1)
      else
        match decode_error docker with
        | Some e => (Raise e, h1)
        | None =>
            match launch_error podman with
            | Some e => (Raise e, h1)
            | None =>
                if scan w "podman" (yielded podman) then (Ok "podman", h2)
                else
                  match decode_error podman with
                  | Some e => (Raise e, h2)
                  | None => (Raise NoRuntimeFound, h2)
                  end
            end
        end
  end.
Proof.
  cbv zeta. unfold _determine_runtime, bind, start, finish, shell, ret, raise.
  cbn [gen_cmd gen_fail andb fst snd].
  destruct (popen w h "which docker") as [dlines dcode|dlines msg|msg|msg];
    try reflexivity; cbn [fst snd yielded launch_error decode_error];
    (destruct (scan w "docker" dlines); [reflexivity|]); try reflexivity.
  destruct (popen w _ "which podman") as [plines pcode|plines msg|msg|msg];
    try reflexivity; cbn [fst snd yielded launch_error decode_error];
    destruct (scan w "podman" plines); reflexivity.
Qed.

(** C8 (as the code has it): detection looks up docker first and podman
    second; a candidate is accepted on a line printed by [which] that is a
    path ending in its name and is no symbolic link; the first accepted
    candidate is returned at once (podman is not even looked up when docker
    is accepted); when both lookups ran to their end and neither candidate
    was accepted the call raises [NoRuntimeFound]; when [which] itself
    cannot be started, or prints what is not UTF-8 before a candidate is
    accepted, that error is raised instead.  As [which] prints paths of
    executables only, a candidate is returned only for a path that is a
    real executable and not a symbolic link. *)
Theorem determine_runtime_priority (h : trace) :
  let docker := popen w h "which docker" in
  let h1 := (h ++ [Spawn "which docker"])%list in
  let podman := popen w h1 "which podman" in
  let h2 := (h1 ++ [Spawn "which podman"])%list in
  (launch_error docker = None ->
   accepted w "docker" (yielded docker) ->
   _determine_runtime w h = (Ok "docker", h1)) /\
  (launch_error docker = None -> decode_error docker = None ->
   ~ accepted w "docker" (yielded docker) ->
   launch_error podman = None ->
   accepted w "podman" (yielded podman) ->
   _determine_runtime w h = (Ok "podman", h2)) /\
  (launch_error docker = None -> decode_error docker = None ->
   ~ accepted w "docker" (yielded docker) ->
   launch_error podman = None -> decode_error podman = None ->
   ~ accepted w "podman" (yielded podman) ->
   _determine_runtime w h = (Raise NoRuntimeFound, h2)) /\
  (forall e,
      launch_error docker = Some e ->
      _determine_runtime w h = (Raise e, h)) /\
  (forall e,
      ~ accepted w "docker" (yielded docker) ->
      decode_error docker = Some e ->
      _determine_runtime w h = (Raise e, h1)) /\
  (forall e,
      launch_error docker = None -> decode_error docker = None ->
      ~ accepted w "docker" (yielded docker) ->
      launch_error podman = Some e ->
      _determine_runtime w h = (Raise e, h1)) /\
  (forall e,
      launch_error docker = None -> decode_error docker = None ->
      ~ accepted w "docker" (yielded docker) ->
      ~ accepted w "podman" (yielded podman) ->
      decode_error podman = Some e ->
      _determine_runtime w h = (Raise e, h2)) /\
  (which_reports_executables w ->
   forall candidate h',
     _determine_runtime w h = (Ok candidate, h') ->
     exists h0 line,
       In line (yielded (popen w h0 ("which " ++ candidate))) /\
       (exists dir, line = dir ++ "/" ++ candidate) /\
       executable w line = true /\
       islink w line = false).
Proof.
  assert (Hrun := determine_runtime_run h). cbv zeta in Hrun |- *.
  rewrite Hrun. clear Hrun.
  split; [|split; [|split; [|split; [|split; [|split; [|split]]]]]].
  - intros -> Hd. apply scan_true in Hd. now rewrite Hd.
  - intros -> -> Hd -> Hp.
    apply scan_false in Hd. apply scan_true in Hp. now rewrite Hd, Hp.
  - intros -> -> Hd -> -> Hp.
    apply scan_false in Hd. apply scan_false in Hp. now rewrite Hd, Hp.
  - now intros e ->.
  - intros e Hd He. apply scan_false in Hd. rewrite Hd, He.
    destruct (popen w h "which docker"); try discriminate. reflexivity.
  - intros e -> -> Hd ->. apply scan_false in Hd. now rewrite Hd.
  - intros e -> -> Hd Hp He.
    apply scan_false in Hd. apply scan_false in Hp. rewrite Hd, Hp, He.
    destruct (popen w _ "which podman"); try discriminate. reflexivity.
  - intros Hwhich candidate h' Hrun.
    destruct (launch_error (popen w h "which docker")); [discriminate|].
    destruct (scan w "docker" _) eqn:Hd.
    + injection Hrun as <- <-. apply scan_true in Hd.
      destruct Hd as (line & Hin & Hdir & Hlink).
      exists h, line. repeat split; try assumption.
      exact (Hwhich h "docker" line Hin Hdir).
    + destruct (decode_error (popen w h "which docker")); [discriminate|].
      destruct (launch_error (popen w _ "which podman")); [discriminate|].
      destruct (scan w "podman" _) eqn:Hp.
      * injection Hrun as <- <-. apply scan_true in Hp.
        destruct Hp as (line & Hin & Hdir & Hlink).
        exists (h ++ [Spawn "which docker"])%list, line.
        repeat split; try assumption.
        exact (Hwhich _ "podman" line Hin Hdir).
      * destruct (decode_error (popen w _ "which podman")); discriminate.
Qed.

(** The runtime is one of the two candidates, and detection raises nothing
    but [NoRuntimeFound] and the errors of running [which]. *)
Lemma determine_runtime_cases (h : trace) :
  (exists h', _determine_runtime w h = (Ok "docker", h')) \/
  (exists h', _determine_runtime w h = (Ok "podman", h')) \/
  (exists e h', _determine_runtime w h = (Raise e, h')).
Proof.
  assert (Hrun := determine_runtime_run h). cbv zeta in Hrun. rewrite Hrun.
  destruct (launch_error (popen w h "which docker")); [eauto|].
  destruct (scan w "docker" _); [eauto|].
  destruct (decode_error (popen w h "which docker")); [eauto|].
  destruct (launch_error (popen w _ "which podman")); [eauto|].
  destruct (scan w "podman" _); [eauto|].
  destruct (decode_error (popen w _ "which podman")); eauto.
Qed.

End Detection.

(** The docker host keeps the contract of [which]. *)
Lemma docker_host_which_contract (images0 : list string) :
  which_reports_executables (docker_host images0).
Proof.
  intros h candidate line Hin Hdir.
  cbn in Hin.
  destruct (String.eqb candidate "docker");
    [|destruct (String.eqb candidate "podman")]; cbn [yielded In] in Hin.
  - destruct Hin as [<-|[]]. reflexivity.
  - destruct Hin.
  - destruct Hin.
Qed.

Lemma determine_runtime_priority_witness :
  _determine_runtime (docker_host []) [] = (Ok "docker", [Spawn "which docker"]) /\
  _determine_runtime (podman_host []) []
    = (Ok "podman", [Spawn "which docker"; Spawn "which podman"]) /\
  _determine_runtime bare_host []
    = (Raise NoRuntimeFound, [Spawn "which docker"; Spawn "which podman"]) /\
  _determine_runtime no_which_host []
    = (Raise (OSError "[Errno 2] No such file or directory: 'which'"), []) /\
  (exists h0 line,
      In line (yielded (popen (docker_host []) h0 ("which " ++ "docker"))) /\
      (exists dir, line = dir ++ "/" ++ "docker") /\
      executable (docker_host []) line = true /\
      islink (docker_host []) line = false).
Proof.
  assert (Hno : forall w c l, (islink w l = true \/ endswith l ("/" ++ c) = false) ->
                              ~ accepted w c [l]).
  { intros w c l H (l' & [<-|[]] & Hdir & Hlnk).
    destruct H as [H|H]; [congruence|].
    destruct Hdir as [dir ->]. now rewrite endswith_app in H. }
  split; [|split; [|split; [|split]]].
  - apply (proj1 (determine_runtime_priority (docker_host []) []));
      [reflexivity|].
    exists "/usr/bin/docker". split; [now left|]. split; [now exists "/usr/bin"|].
    reflexivity.
  - apply (proj1 (proj2 (determine_runtime_priority (podman_host []) [])));
      try reflexivity.
    + apply Hno. left. reflexivity.
    + exists "/usr/bin/podman". split; [now left|].
      split; [now exists "/usr/bin"|]. reflexivity.
  - apply (proj1 (proj2 (proj2 (determine_runtime_priority bare_host []))));
      try reflexivity.
    + apply Hno. right. reflexivity.
    + apply Hno. right. reflexivity.
  - apply (proj1 (proj2 (proj2 (proj2
             (determine_runtime_priority no_which_host []))))).
    reflexivity.
  - apply (proj2 (proj2 (proj2 (proj2 (proj2 (proj2 (proj2
             (determine_runtime_priority (docker_host []) [])))))))
             (docker_host_which_contract []) "docker" [Spawn "which docker"]).
    reflexivity.
Defined.

(** C8 as stated fails: on a host without [which] no candidate is accepted,
    yet detection does not raise [NoRuntimeFound]: it raises the error of
    line 192, before any process is started. *)
Lemma determine_runtime_without_which :
  _determine_runtime no_which_host []
  = (Raise (OSError "[Errno 2] No such file or directory: 'which'"), []) /\
  fst (_determine_runtime no_which_host []) <> Raise NoRuntimeFound.
Proof. split; [reflexivity | discriminate]. Qed.

(** ** Builder arguments *)

(** C7: for the bundle list [[{img:"a", tag:"1"}]] and the index
    [{img:"idx", tag:"v1"}], when the detected runtime is docker, the
    generated arguments are exactly
    [" index add --build-tool docker --bundles a:1 --tag idx:v1"]. *)
Theorem generate_command_line_scenario
        (w : world) (name : option string) (h h' : trace) :
  _determine_runtime w h = (Ok "docker", h') ->
  generate_command_line w
    (settings_of [OperatorBundle.mk name (Str "a") (Str "1")] "idx" "v1") h
  = (Ok " index add --build-tool docker --bundles a:1 --tag idx:v1", h').
Proof.
  intros H. unfold generate_command_line.
  cbn [bundles settings_of bundle_refs bundle_ref
       OperatorBundle.img OperatorBundle.tag].
  unfold bind, ret. rewrite H. reflexivity.
Qed.

Lemma generate_command_line_scenario_witness :
  generate_command_line (docker_host []) idx_v1 []
  = (Ok " index add --build-tool docker --bundles a:1 --tag idx:v1",
     [Spawn "which docker"]).
Proof.
  apply (generate_command_line_scenario (docker_host []) (Some "a") []).
  reflexivity.
Defined.

(** Bundles are rendered in stored order, comma separated. *)
Example generate_command_line_two_bundles :
  generate_command_line (podman_host [])
    (settings_of [OperatorBundle.mk None (Str "quay.io/b") (Str "2");
                  OperatorBundle.mk None (Str "a") (Str "1")] "idx" "v1") []
  = (Ok " index add --build-tool podman --bundles quay.io/b:2,a:1 --tag idx:v1",
     [Spawn "which docker"; Spawn "which podman"]).
Proof. reflexivity. Qed.

(** ** Running lists of commands *)

Lemma append_assoc (a b c : string) : (a ++ b) ++ c = a ++ b ++ c.
Proof. induction a as [|x a IH]; cbn [append]; [reflexivity | now rewrite IH]. Qed.

Lemma prefix_skip (r a b : string) : prefix (r ++ a) (r ++ b) = prefix a b.
Proof.
  induction r as [|x r IH]; cbn [append prefix]; [reflexivity|].
  destruct (ascii_dec x x); [exact IH | congruence].
Qed.

Lemma is_push_push (runtime ref : string) :
  is_push runtime (runtime ++ " push " ++ ref) = true.
Proof. unfold is_push. rewrite prefix_skip. cbn. now destruct ref. Qed.

Lemma is_push_tag (runtime args : string) :
  is_push runtime (runtime ++ " tag " ++ args) = false.
Proof. unfold is_push. rewrite prefix_skip. reflexivity. Qed.

Lemma spawned_app (h1 h2 : trace) :
  spawned (h1 ++ h2)%list = (spawned h1 ++ spawned h2)%list.
Proof. apply flat_map_app. Qed.

Lemma spawned_prints (lines : list string) : spawned (map Stdout lines) = [].
Proof. induction lines; [reflexivity | exact IHlines]. Qed.

Lemma build_invoked_app (h1 h2 : trace) :
  build_invoked (h1 ++ h2)%list = (build_invoked h1 || build_invoked h2)%bool.
Proof. apply existsb_app. Qed.

Lemma build_invoked_prints (lines : list string) :
  build_invoked (map Stdout lines) = false.
Proof. induction lines; [reflexivity | exact IHlines]. Qed.

Lemma for_each_print_run (lines : list string) (h : trace) :
  for_each lines print h = (Ok tt, (h ++ map Stdout lines)%list).
Proof.
  revert h. induction lines as [|l lines IH]; intros h; cbn [for_each map].
  - unfold ret. now rewrite app_nil_r.
  - unfold bind, print, emit. rewrite IH. now rewrite <- app_assoc.
Qed.

Section Commands.

Variable w : world.

Lemma for_in_print_run (cmd : string) (h : trace) :
  for_in w (shell cmd true) print h =
  match popen w h cmd with
  | Started lines code =>
      ((if (code =? 0)%Z then Ok tt else Raise (SystemExit code)),
       (h ++ Spawn cmd :: map Stdout lines)%list)
  | Garbled lines msg =>
      (Raise (UnicodeDecodeError msg),
       (h ++ Spawn cmd :: map Stdout lines)%list)
  | NotSplit msg => (Raise (ValueError msg), h)
  | NotSpawned msg => (Raise (OSError msg), h)
  end.
Proof.
  unfold for_in, bind, start, finish, shell, raise, ret.
  cbn [gen_cmd gen_fail fst snd andb].
  destruct (popen w h cmd) as [lines code|lines msg|msg|msg]; try reflexivity;
    cbn [fst snd]; rewrite for_each_print_run;
    rewrite <- app_assoc; cbn [app]; [|reflexivity].
  destruct (code =? 0)%Z; reflexivity.
Qed.

Lemma spawned_run (h : trace) (cmd : string) (lines : list string) :
  spawned (h ++ Spawn cmd :: map Stdout lines)%list = (spawned h ++ [cmd])%list.
Proof.
  rewrite spawned_app. cbn [spawned flat_map spawned_of app].
  fold (spawned (map Stdout lines)). now rewrite spawned_prints.
Qed.

Lemma build_invoked_run (h : trace) (cmd : string) (lines : list string) :
  build_invoked (h ++ Spawn cmd :: map Stdout lines)%list = build_invoked h.
Proof.
  rewrite build_invoked_app. cbn [build_invoked existsb is_install orb].
  fold (build_invoked (map Stdout lines)).
  rewrite build_invoked_prints. apply orb_false_r.
Qed.

(** A run of commands starts them in order and stops at the first one that
    cannot be started or exits with a code other than 0. *)
Lemma run_all_shape (cmds : list string) (h : trace) :
  exists issued rest,
    cmds = (issued ++ rest)%list /\
    spawned (snd (run_all w cmds h)) = (spawned h ++ issued)%list /\
    build_invoked (snd (run_all w cmds h)) = build_invoked h /\
    ((fst (run_all w cmds h) = Ok tt /\ rest = []) \/
     (exists e, command_failure e /\ fst (run_all w cmds h) = Raise e)).
Proof.
  revert h. induction cmds as [|cmd cmds IH]; intros h.
  - exists [], []. cbn [run_all for_each ret fst snd app]. rewrite app_nil_r.
    repeat split. now left.
  - unfold run_all. cbn [for_each]. unfold bind. rewrite for_in_print_run.
    destruct (popen w h cmd) as [lines code|lines msg|msg|msg].
    + destruct (Z.eqb_spec code 0) as [Hz|Hnz].
      * destruct (IH (h ++ Spawn cmd :: map Stdout lines)%list)
          as (issued & rest & -> & Hsp & Hbi & Hres).
        exists (cmd :: issued), rest. unfold run_all in *.
        split; [reflexivity|]. split; [|split; [|exact Hres]].
        -- rewrite Hsp, spawned_run, <- app_assoc. reflexivity.
        -- now rewrite Hbi, build_invoked_run.
      * exists [cmd], cmds. cbn [fst snd]. split; [reflexivity|].
        split; [apply spawned_run|]. split; [apply build_invoked_run|].
        right. exists (SystemExit code). split; [left; eauto | reflexivity].
    + exists [cmd], cmds. cbn [fst snd]. split; [reflexivity|].
      split; [apply spawned_run|]. split; [apply build_invoked_run|].
      right. exists (UnicodeDecodeError msg).
      split; [right; right; right; eauto | reflexivity].
    + exists [], (cmd :: cmds). cbn [fst snd]. rewrite app_nil_r.
      repeat split. right. exists (ValueError msg).
      split; [right; left; eauto | reflexivity].
    + exists [], (cmd :: cmds). cbn [fst snd]. rewrite app_nil_r.
      repeat split. right. exists (OSError msg).
      split; [right; right; left; eauto | reflexivity].
Qed.

Lemma run_all_ok (cmds : list string) (h : trace) :
  (forall h' cmd, In cmd cmds -> exists lines, popen w h' cmd = Started lines 0) ->
  fst (run_all w cmds h) = Ok tt.
Proof.
  revert h. induction cmds as [|cmd cmds IH]; intros h H; [reflexivity|].
  unfold run_all. cbn [for_each]. unfold bind. rewrite for_in_print_run.
  destruct (H h cmd (or_introl eq_refl)) as [lines ->]. cbn [Z.eqb].
  apply IH. intros h' c Hc. apply H. now right.
Qed.

Variable settings : OperatorIndexSettings.

Lemma publish_unfold (runtime built_tag : string) (extra_tag : list string) :
  publish w settings runtime built_tag extra_tag =
  (run_all w (tag_cmds_of runtime built_tag (extra_tags_of settings extra_tag)) ;;;
   run_all w (push_cmds_of runtime built_tag (extra_tags_of settings extra_tag))).
Proof. reflexivity. Qed.

(** Tagging and pushing start commands of the planned list only, never
    enter the build, and fail only as a command run through [shell] does. *)
Lemma publish_shape (runtime built_tag : string) (extra_tag : list string)
      (h : trace) :
  let extra_tags := extra_tags_of settings extra_tag in
  let r := publish w settings runtime built_tag extra_tag h in
  exists issued rest,
    (tag_cmds_of runtime built_tag extra_tags ++
     push_cmds_of runtime built_tag extra_tags)%list = (issued ++ rest)%list /\
    spawned (snd r) = (spawned h ++ issued)%list /\
    build_invoked (snd r) = build_invoked h /\
    ((fst r = Ok tt /\ rest = []) \/
     (exists e, command_failure e /\ fst r = Raise e)).
Proof.
  cbv zeta. rewrite publish_unfold. unfold bind.
  set (tags := tag_cmds_of _ _ _). set (pushes := push_cmds_of _ _ _).
  destruct (run_all_shape tags h) as (i1 & r1 & Ht & Hsp1 & Hbi1 & Hres1).
  destruct (run_all w tags h) as [[[]|e] h1]; cbn beta iota; cbn [fst snd] in *.
  - destruct Hres1 as [[_ ->]|(code & _ & Hc)]; [|discriminate].
    rewrite app_nil_r in Ht. subst i1.
    destruct (run_all_shape pushes h1) as (i2 & r2 & Hp & Hsp2 & Hbi2 & Hres2).
    exists (tags ++ i2)%list, r2. rewrite Hsp2, Hsp1, Hbi2, Hbi1.
    rewrite <- !app_assoc. split; [now rewrite Hp at 1|].
    split; [reflexivity|]. split; [reflexivity | exact Hres2].
  - destruct Hres1 as [[Hc _]|(code & Hnz & Hc)]; [discriminate|].
    exists i1, (r1 ++ pushes)%list. rewrite Ht, <- app_assoc.
    repeat split; try assumption. right. eauto.
Qed.

End Commands.

(** ** Push order *)

Lemma filter_is_push_plan (runtime built_tag : string) (extra_tags : list string) :
  filter (is_push runtime)
         (tag_cmds_of runtime built_tag extra_tags ++
          push_cmds_of runtime built_tag extra_tags)%list
  = push_cmds_of runtime built_tag extra_tags.
Proof.
  rewrite filter_app. unfold tag_cmds_of, push_cmds_of.
  assert (Ht : forall l, filter (is_push runtime)
                 (map (fun tag => runtime ++ " tag " ++ built_tag ++ " " ++ tag) l)
               = []).
  { induction l as [|x l IH]; [reflexivity|]. cbn [map filter].
    now rewrite is_push_tag. }
  assert (Hp : forall l, filter (is_push runtime)
                 (map (fun tag => runtime ++ " push " ++ tag) l)
               = map (fun tag => runtime ++ " push " ++ tag) l).
  { induction l as [|x l IH]; [reflexivity|]. cbn [map filter].
    now rewrite is_push_push, IH. }
  now rewrite Ht, Hp.
Qed.

(** C5: for extra tags [t1 .. tn] and working tag [W], the pushes issued are
    [runtime push {indexImage}:{t1}], ..., [runtime push {indexImage}:{tn}],
    [runtime push W], in that order, after the local tag commands: whatever
    happens the subprocesses started are an initial part of that plan; a run
    that completes has started all of it, so that its pushes are exactly the
    extra tags in the caller's order followed by the working tag; and the
    run does complete when the planned commands start and exit with code
    0. *)
Theorem publish_push_order (w : world) (s : OperatorIndexSettings)
        (runtime W : string) (extra_tag : list string) (h : trace) :
  let extra_tags :=
    map (fun t => OperatorIndex.img (index s) ++ ":" ++ t) extra_tag in
  let tags := map (fun x => runtime ++ " tag " ++ W ++ " " ++ x) extra_tags in
  let pushes := map (fun x => runtime ++ " push " ++ x) (extra_tags ++ [W])%list in
  let r := publish w s runtime W extra_tag h in
  (exists issued rest,
      spawned (snd r) = (spawned h ++ issued)%list /\
      (issued ++ rest)%list = (tags ++ pushes)%list) /\
  (fst r = Ok tt ->
   spawned (snd r) = (spawned h ++ tags ++ pushes)%list /\
   filter (is_push runtime) (spawned (snd r))
   = (filter (is_push runtime) (spawned h) ++ pushes)%list) /\
  ((forall h' cmd, In cmd (tags ++ pushes)%list ->
                   exists lines, popen w h' cmd = Started lines 0) ->
   fst r = Ok tt).
Proof.
  cbv zeta.
  change (map (fun t => OperatorIndex.img (index s) ++ ":" ++ t) extra_tag)
    with (extra_tags_of s extra_tag).
  set (extra_tags := extra_tags_of s extra_tag).
  change (map (fun x => runtime ++ " tag " ++ W ++ " " ++ x) extra_tags)
    with (tag_cmds_of runtime W extra_tags).
  change (map (fun x => runtime ++ " push " ++ x) (extra_tags ++ [W])%list)
    with (push_cmds_of runtime W extra_tags).
  destruct (publish_shape w s runtime W extra_tag h)
    as (issued & rest & Hplan & Hsp & _ & Hres).
  fold extra_tags in Hplan.
  split; [|split].
  - exists issued, rest. split; [exact Hsp | now symmetry].
  - intros Hok. destruct Hres as [[_ ->]|(code & _ & Hc)]; [|congruence].
    rewrite app_nil_r in Hplan. subst issued. split; [exact Hsp|].
    rewrite Hsp, filter_app. f_equal. apply filter_is_push_plan.
  - intros Hzero. rewrite publish_unfold. unfold bind. fold extra_tags.
    assert (H1 := run_all_ok w (tag_cmds_of runtime W extra_tags) h).
    destruct (run_all w (tag_cmds_of runtime W extra_tags) h) as [[[]|e] h1].
    + apply run_all_ok. intros h' c Hc. apply Hzero, in_or_app. now right.
    + cbn [fst] in H1. apply H1. intros h' c Hc. apply Hzero, in_or_app.
      now left.
Qed.

(** [push] is [publish] on the runtime and working tag that [prepare]
    delivers. *)
Lemma push_after_prepare (w : world) (s : OperatorIndexSettings)
      (tag_extension : option string) (extra_tag : list string) (build : bool)
      (h h' : trace) (runtime W : string) :
  prepare w s tag_extension build h = (Ok (runtime, W), h') ->
  push w s tag_extension extra_tag build h = publish w s runtime W extra_tag h'.
Proof. intros H. unfold push, bind. now rewrite H. Qed.

(** A whole run on the podman host: two extra tags, then the working tag. *)
Example push_order_run :
  push (podman_host ["idx:v1"]) idx_v1 None ["t1"; "t2"] false []
  = (Ok tt,
     [Spawn "which docker"; Spawn "which podman";
      Spawn "podman images --format '{{.Repository}}:{{.Tag}}'";
      Spawn "podman tag idx:v1 idx:t1"; Spawn "podman tag idx:v1 idx:t2";
      Spawn "podman push idx:t1"; Spawn "podman push idx:t2";
      Spawn "podman push idx:v1"]).
Proof. reflexivity. Qed.

Lemma publish_push_order_witness :
  spawned (snd (publish (docker_host ["idx:v1"]) idx_v1 "docker" "idx:v1"
                        ["t1"; "t2"] []))
  = ["docker tag idx:v1 idx:t1"; "docker tag idx:v1 idx:t2";
     "docker push idx:t1"; "docker push idx:t2"; "docker push idx:v1"] /\
  fst (publish (podman_host ["idx:v1"]) idx_v1 "podman" "idx:v1"
               ["t1"; "t2"] []) = Ok tt.
Proof.
  split.
  - apply (publish_push_order (docker_host ["idx:v1"]) idx_v1 "docker" "idx:v1"
             ["t1"; "t2"] []).
    reflexivity.
  - apply (publish_push_order (podman_host ["idx:v1"]) idx_v1 "podman" "idx:v1"
             ["t1"; "t2"] []).
    intros h' cmd Hin. cbn in Hin.
    repeat (destruct Hin as [<-|Hin]; [exists []; reflexivity|]). destruct Hin.
Defined.

(** ** From detection to the working tag *)

Section Orchestration.

Variable w : world.
Variable s : OperatorIndexSettings.

Lemma determine_runtime_trace (h : trace) :
  build_invoked (snd (_determine_runtime w h)) = build_invoked h.
Proof.
  assert (H1 : build_invoked (h ++ [Spawn "which docker"])%list
               = build_invoked h)
    by (rewrite build_invoked_app; apply orb_false_r).
  assert (H2 : build_invoked
                 ((h ++ [Spawn "which docker"]) ++ [Spawn "which podman"])%list
               = build_invoked h)
    by (rewrite build_invoked_app, H1; apply orb_false_r).
  assert (Hrun := determine_runtime_run w h). cbv zeta in Hrun. rewrite Hrun.
  repeat match goal with
         | |- context [match ?x with _ => _ end] => destruct x
         end; cbn [snd]; auto.
Qed.

Lemma generate_command_line_run (h : trace) :
  generate_command_line w s h =
  match bundle_refs (bundles s) with
  | inr msg => (Raise (TypeError msg), h)
  | inl refs =>
      match _determine_runtime w h with
      | (Ok runtime, h') =>
          (Ok (" index add --build-tool " ++ runtime ++ " --bundles " ++
               join "," refs ++ " --tag " ++ configured_tag s), h')
      | (Raise e, h') => (Raise e, h')
      end
  end.
Proof.
  unfold generate_command_line, bind, ret, raise, configured_tag.
  destruct (bundle_refs (bundles s)); [|reflexivity].
  destruct (_determine_runtime w h) as [[runtime|e] h']; reflexivity.
Qed.

Lemma do_build_unfold (tag_extension : option string) (opm_version : string)
      (h : trace) :
  do_build w s tag_extension opm_version h =
  match install w h opm_version with
  | Some e => (Raise e, (h ++ [InstallOpm opm_version])%list)
  | None =>
      match generate_command_line w s (h ++ [InstallOpm opm_version])%list with
      | (Raise e, h') => (Raise e, h')
      | (Ok args, h') =>
          for_in w (shell match tag_extension with
                          | Some ext => (opm_path w ++ args) ++ "-" ++ ext
                          | None => opm_path w ++ args
                          end true) print h'
      end
  end.
Proof.
  unfold do_build, bind, install_opm, ret.
  destruct (install w h opm_version); [reflexivity|].
  destruct (generate_command_line w s _) as [[args|e] h']; reflexivity.
Qed.

(** Once the runtime is known and the image listing succeeded, what is left
    of lines 324-377 is the decision of [acquire] on the resolver's answer. *)
Lemma prepare_run (tag_extension : option string) (build : bool)
      (h h1 : trace) (runtime : string) (images : list string) :
  _determine_runtime w h = (Ok runtime, h1) ->
  popen w h1 (images_cmd runtime) = Started images 0 ->
  prepare w s tag_extension build h =
  (built_tag <- acquire w s runtime tag_extension build
                  (fst (resolve (configured_tag s) tag_extension images))
                  (snd (resolve (configured_tag s) tag_extension images)) ;;
   ret (runtime, built_tag)) (h1 ++ [Spawn (images_cmd runtime)])%list.
Proof.
  intros Hrt Himg. unfold prepare, bind. rewrite Hrt.
  unfold collect, bind, start, shell. cbn [gen_cmd]. rewrite Himg.
  cbv [finish gen_fail andb negb Z.eqb snd fst ret].
  destruct (resolve (configured_tag s) tag_extension images); reflexivity.
Qed.

(** The retag branch of line 368: the tag is extended, and no subprocess is
    started. *)
Lemma acquire_retag (runtime ext built_tag : string) (build : bool) (h : trace) :
  ext <> "" ->
  endswith built_tag ("-" ++ ext) = false ->
  acquire w s runtime (Some ext) build true built_tag h
  = (Ok (built_tag ++ "-" ++ ext), h).
Proof.
  intros Hne Hsuf. unfold acquire, truthy. cbn [negb]. rewrite Hsuf.
  destruct (String.eqb_spec ext "") as [->|_]; [contradiction | reflexivity].
Qed.

(** A found image whose tag already ends with the extension is kept. *)
Lemma acquire_keep (runtime ext built_tag : string) (build : bool) (h : trace) :
  endswith built_tag ("-" ++ ext) = true ->
  acquire w s runtime (Some ext) build true built_tag h = (Ok built_tag, h).
Proof.
  intros Hsuf. unfold acquire. cbn [negb]. rewrite Hsuf, andb_false_r.
  reflexivity.
Qed.

Lemma acquire_missing_no_build (runtime : string) (tag_extension : option string)
      (built_tag : string) (h : trace) :
  acquire w s runtime tag_extension false false built_tag h
  = (Raise ImageNotFound, h).
Proof. reflexivity. Qed.

(** Entering the build is recorded at once. *)
Lemma acquire_missing_build (runtime : string) (tag_extension : option string)
      (built_tag : string) (h : trace) :
  build_invoked (snd (acquire w s runtime tag_extension true false built_tag h))
  = true.
Proof.
  unfold acquire. cbn [negb]. unfold bind. rewrite do_build_unfold.
  assert (Hb : build_invoked (h ++ [InstallOpm "latest"])%list = true).
  { rewrite build_invoked_app. cbn. apply orb_true_r. }
  destruct (install w h "latest"); [exact Hb|].
  rewrite generate_command_line_run.
  destruct (bundle_refs (bundles s)); [|exact Hb].
  assert (Hd := determine_runtime_trace (h ++ [InstallOpm "latest"])%list).
  rewrite Hb in Hd.
  destruct (_determine_runtime w _) as [[rt|e] h1]; cbn [snd] in Hd;
    [|exact Hd].
  rewrite for_in_print_run.
  destruct (popen w h1 _) as [lines code|lines msg|msg|msg];
    [| |exact Hd|exact Hd].
  - destruct (code =? 0)%Z.
    + destruct tag_extension; unfold ret; cbn [snd];
        now rewrite build_invoked_run.
    + cbn [snd]. now rewrite build_invoked_run.
  - cbn [snd]. now rewrite build_invoked_run.
Qed.

End Orchestration.

(** ** The scenarios of the publish orchestration *)

(** When only the plain tag is listed and a non-empty extension is asked
    for, [push] goes on to tag and push under the extended name, whatever
    the build flag says. *)
Lemma push_generic_match (w : world) (s : OperatorIndexSettings)
      (ext : string) (extra_tag : list string) (build : bool)
      (h h1 : trace) (runtime : string) (images : list string) :
  _determine_runtime w h = (Ok runtime, h1) ->
  popen w h1 (images_cmd runtime) = Started images 0 ->
  ext <> "" ->
  endswith (configured_tag s) ("-" ++ ext) = false ->
  In (configured_tag s) images ->
  ~ In (configured_tag s ++ "-" ++ ext) images ->
  push w s (Some ext) extra_tag build h
  = publish w s runtime (configured_tag s ++ "-" ++ ext) extra_tag
            (h1 ++ [Spawn (images_cmd runtime)])%list.
Proof.
  intros Hrt Himg Hne Hsuf Hin Hnin. unfold push. unfold bind at 1.
  rewrite (prepare_run w s (Some ext) build h h1 runtime images Hrt Himg).
  rewrite (resolve_plain_fallback _ _ _ Hnin Hin). cbn [fst snd].
  unfold bind at 1.
  rewrite (acquire_retag w s runtime ext (configured_tag s) build _ Hne Hsuf).
  reflexivity.
Qed.

Lemma publish_not_ImageNotFound (w : world) (s : OperatorIndexSettings)
      (runtime built_tag : string) (extra_tag : list string) (h : trace) :
  fst (publish w s runtime built_tag extra_tag h) <> Raise ImageNotFound.
Proof.
  destruct (publish_shape w s runtime built_tag extra_tag h)
    as (_ & _ & _ & _ & _ & [[-> _]|(e & He & ->)]); [discriminate|].
  destruct He as [(code & _ & ->)|[[msg ->]|[[msg ->]|[msg ->]]]];
    discriminate.
Qed.

(** C2 (as the code has it): with local images exactly [["idx:v1"]], index
    [idx:v1], extension ["ci"] and the build flag off, the plain match counts
    as found: the run does not raise [ImageNotFound] but carries on to tag
    and push with [idx:v1-ci] as the working tag. *)
Theorem push_generic_match_build_disabled (w : world) (s : OperatorIndexSettings)
        (extra_tag : list string) (runtime : string) (h1 : trace) :
  index s = OperatorIndex.mk "idx" "v1" ->
  _determine_runtime w [] = (Ok runtime, h1) ->
  popen w h1 (images_cmd runtime) = Started ["idx:v1"] 0 ->
  push w s (Some "ci") extra_tag false []
  = publish w s runtime "idx:v1-ci" extra_tag
            (h1 ++ [Spawn (images_cmd runtime)])%list /\
  fst (push w s (Some "ci") extra_tag false []) <> Raise ImageNotFound.
Proof.
  intros Hidx Hrt Himg.
  assert (Hpush : push w s (Some "ci") extra_tag false []
                  = publish w s runtime "idx:v1-ci" extra_tag
                            (h1 ++ [Spawn (images_cmd runtime)])%list).
  { rewrite (push_generic_match w s "ci" extra_tag false [] h1 runtime
               ["idx:v1"] Hrt Himg);
      unfold configured_tag; rewrite ?Hidx;
      cbn [OperatorIndex.img OperatorIndex.tag].
    - reflexivity.
    - discriminate.
    - reflexivity.
    - now left.
    - intros [H|[]]. discriminate H. }
  split; [exact Hpush|]. rewrite Hpush. apply publish_not_ImageNotFound.
Qed.

Lemma push_generic_match_build_disabled_witness :
  fst (push (docker_host ["idx:v1"]) idx_v1 (Some "ci") [] false [])
  <> Raise ImageNotFound.
Proof.
  apply (push_generic_match_build_disabled (docker_host ["idx:v1"]) idx_v1 []
           "docker" [Spawn "which docker"]); reflexivity.
Defined.

(** C2 as stated fails: on a docker host whose only image is [idx:v1], the
    push with extension ["ci"] and the build flag off does not end in
    [ImageNotFound]; it goes on to push [idx:v1-ci]. *)
Lemma push_build_disabled_not_ImageNotFound :
  push (docker_host ["idx:v1"]) idx_v1 (Some "ci") [] false []
  = (Raise (SystemExit 1),
     [Spawn "which docker";
      Spawn "docker images --format '{{.Repository}}:{{.Tag}}'";
      Spawn "docker push idx:v1-ci";
      Stdout "An image does not exist locally with the tag: idx:v1-ci"]) /\
  fst (push (docker_host ["idx:v1"]) idx_v1 (Some "ci") [] false [])
  <> Raise ImageNotFound.
Proof. split; [reflexivity | discriminate]. Qed.

(** C3 (as the code has it): with local images exactly [["idx:v1"]], index
    [idx:v1], extension ["ci"] and the build flag on, the plain match counts
    as found: the build is never entered, and the run carries on to tag and
    push with [idx:v1-ci] as the working tag. *)
Theorem push_generic_match_build_enabled (w : world) (s : OperatorIndexSettings)
        (extra_tag : list string) (runtime : string) (h1 : trace) :
  index s = OperatorIndex.mk "idx" "v1" ->
  _determine_runtime w [] = (Ok runtime, h1) ->
  popen w h1 (images_cmd runtime) = Started ["idx:v1"] 0 ->
  build_invoked (snd (push w s (Some "ci") extra_tag true [])) = false /\
  push w s (Some "ci") extra_tag true []
  = publish w s runtime "idx:v1-ci" extra_tag
            (h1 ++ [Spawn (images_cmd runtime)])%list.
Proof.
  intros Hidx Hrt Himg.
  assert (Hpush : push w s (Some "ci") extra_tag true []
                  = publish w s runtime "idx:v1-ci" extra_tag
                            (h1 ++ [Spawn (images_cmd runtime)])%list).
  { rewrite (push_generic_match w s "ci" extra_tag true [] h1 runtime
               ["idx:v1"] Hrt Himg);
      unfold configured_tag; rewrite ?Hidx;
      cbn [OperatorIndex.img OperatorIndex.tag].
    - reflexivity.
    - discriminate.
    - reflexivity.
    - now left.
    - intros [H|[]]. discriminate H. }
  split; [|exact Hpush]. rewrite Hpush.
  destruct (publish_shape w s runtime "idx:v1-ci" extra_tag
              (h1 ++ [Spawn (images_cmd runtime)])%list)
    as (_ & _ & _ & _ & -> & _).
  rewrite build_invoked_app. cbn [build_invoked existsb is_install orb].
  rewrite orb_false_r.
  assert (Hd := determine_runtime_trace w []). rewrite Hrt in Hd. exact Hd.
Qed.

Lemma push_generic_match_build_enabled_witness :
  build_invoked
    (snd (push (docker_host ["idx:v1"]) idx_v1 (Some "ci") ["latest"] true []))
  = false.
Proof.
  apply (push_generic_match_build_enabled (docker_host ["idx:v1"]) idx_v1
           ["latest"] "docker" [Spawn "which docker"]); reflexivity.
Defined.

(** C3 as stated fails: on a docker host whose only image is [idx:v1], the
    push with extension ["ci"] and the build flag on never enters the build:
    neither the installer nor the builder runs. *)
Lemma push_build_enabled_no_build :
  build_invoked
    (snd (push (docker_host ["idx:v1"]) idx_v1 (Some "ci") [] true [])) = false /\
  spawned (snd (push (docker_host ["idx:v1"]) idx_v1 (Some "ci") [] true []))
  = ["which docker"; "docker images --format '{{.Repository}}:{{.Tag}}'";
     "docker push idx:v1-ci"].
Proof. split; reflexivity. Qed.

(** By contrast the build is entered when nothing matches. *)
Example push_builds_when_nothing_matches :
  push (docker_host ["other:1"]) idx_v1 (Some "ci") [] true []
  = (Ok tt,
     [Spawn "which docker";
      Spawn "docker images --format '{{.Repository}}:{{.Tag}}'";
      InstallOpm "latest";
      Spawn "which docker";
      Spawn "/root/.local/bin/opm index add --build-tool docker --bundles a:1 --tag idx:v1-ci";
      Spawn "docker push idx:v1-ci"]).
Proof. reflexivity. Qed.

(** And with the build flag off and nothing matching, [ImageNotFound]. *)
Example push_fails_when_nothing_matches :
  push (docker_host ["other:1"]) idx_v1 (Some "ci") [] false []
  = (Raise ImageNotFound,
     [Spawn "which docker";
      Spawn "docker images --format '{{.Repository}}:{{.Tag}}'"]).
Proof. reflexivity. Qed.

(** C4 (the code departs from it): on a docker host whose only image is
    [idx:v1], a push with extension ["ci"] takes the retag branch and adopts
    [idx:v1-ci], but [docker tag idx:v1 idx:v1-ci] is never started: the
    generator of line 373 is not advanced.  The first command after the
    listing is the push of [idx:v1-ci], which fails. *)
Theorem push_retag_never_started :
  push (docker_host ["idx:v1"]) idx_v1 (Some "ci") [] true []
  = (Raise (SystemExit 1),
     [Spawn "which docker";
      Spawn "docker images --format '{{.Repository}}:{{.Tag}}'";
      Spawn "docker push idx:v1-ci";
      Stdout "An image does not exist locally with the tag: idx:v1-ci"]) /\
  ~ In "docker tag idx:v1 idx:v1-ci"
       (spawned (snd (push (docker_host ["idx:v1"]) idx_v1 (Some "ci") [] true []))).
Proof.
  split; [reflexivity|]. cbn. intros [H|[H|[H|[]]]]; discriminate H.
Qed.

(** ** Extra tags *)

(** C9 as stated fails: with index [idx:v1], no extension and the extra tag
    ["v1"], the working tag is [idx:v1] and the list of extra tags is
    [["idx:v1"]]: it contains the working tag, which is then tagged onto
    itself and pushed twice. *)
Lemma extra_tags_may_contain_built_tag :
  prepare (docker_host ["idx:v1"]) idx_v1 None true []
  = (Ok ("docker", "idx:v1"),
     [Spawn "which docker";
      Spawn "docker images --format '{{.Repository}}:{{.Tag}}'"]) /\
  In "idx:v1" (extra_tags_of idx_v1 ["v1"]) /\
  spawned (snd (push (docker_host ["idx:v1"]) idx_v1 None ["v1"] true []))
  = ["which docker"; "docker images --format '{{.Repository}}:{{.Tag}}'";
     "docker tag idx:v1 idx:v1"; "docker push idx:v1"; "docker push idx:v1"].
Proof. repeat split. now left. Qed.

(** C9 (as the code has it): the extra tags are the caller's bare tags, one
    for one and in the caller's order, each rendered as
    ["{indexImage}:{tag}"]; nothing is removed, so the list contains the
    working tag exactly when one of the bare tags renders to it. *)
Theorem extra_tags_rendering (s : OperatorIndexSettings)
        (extra_tag : list string) (built_tag : string) :
  (forall i, nth_error (extra_tags_of s extra_tag) i
             = option_map (fun t => OperatorIndex.img (index s) ++ ":" ++ t)
                          (nth_error extra_tag i)) /\
  (In built_tag (extra_tags_of s extra_tag) <->
   exists t, In t extra_tag /\ built_tag = OperatorIndex.img (index s) ++ ":" ++ t).
Proof.
  unfold extra_tags_of. split.
  - intros i. apply nth_error_map.
  - rewrite in_map_iff. split; intros (t & H1 & H2); exists t; auto.
Qed.

(** ** A configured tag that already ends with the extension *)

(** C10: when the configured index tag itself ends with ["-{E}"], and the
    image list holds the configured name but not the extended one, the
    suffix test of line 368 is satisfied by the plain tag: no retag is
    issued and the working tag stays the plain configured tag. *)
Theorem push_suffix_tag_skips_retag (w : world) (s : OperatorIndexSettings)
        (E stem : string) (build : bool) (images : list string)
        (runtime : string) (h h1 : trace) :
  OperatorIndex.tag (index s) = stem ++ "-" ++ E ->
  In (configured_tag s) images ->
  ~ In (configured_tag s ++ "-" ++ E) images ->
  _determine_runtime w h = (Ok runtime, h1) ->
  popen w h1 (images_cmd runtime) = Started images 0 ->
  resolve (configured_tag s) (Some E) images = (true, configured_tag s) /\
  prepare w s (Some E) build h
  = (Ok (runtime, configured_tag s), (h1 ++ [Spawn (images_cmd runtime)])%list).
Proof.
  intros Htag Hin Hnin Hrt Himg.
  assert (Hres := resolve_plain_fallback _ _ _ Hnin Hin).
  split; [exact Hres|].
  rewrite (prepare_run w s (Some E) build h h1 runtime images Hrt Himg).
  rewrite Hres. cbn [fst snd]. unfold bind. rewrite acquire_keep; [reflexivity|].
  unfold configured_tag. rewrite Htag.
  rewrite <- (append_assoc ":" stem), <- append_assoc.
  apply endswith_app.
Qed.

Lemma push_suffix_tag_skips_retag_witness :
  prepare (docker_host ["idx:v1-ci"]) idx_v1_ci (Some "ci") false []
  = (Ok ("docker", "idx:v1-ci"),
     [Spawn "which docker";
      Spawn "docker images --format '{{.Repository}}:{{.Tag}}'"]).
Proof.
  apply (push_suffix_tag_skips_retag (docker_host ["idx:v1-ci"]) idx_v1_ci
           "ci" "v1" false ["idx:v1-ci"] "docker" [] [Spawn "which docker"]).
  - reflexivity.
  - now left.
  - intros [H|[]]. discriminate H.
  - reflexivity.
  - reflexivity.
Defined.

(** The whole run in that situation: the plain tag is what gets pushed. *)
Example push_suffix_tag_run :
  push (docker_host ["idx:v1-ci"]) idx_v1_ci (Some "ci") [] false []
  = (Ok tt,
     [Spawn "which docker";
      Spawn "docker images --format '{{.Repository}}:{{.Tag}}'";
      Spawn "docker push idx:v1-ci"]).
Proof. reflexivity. Qed.


(** * Further properties of the script *)

(** ** [shell] *)

(** X1: what becomes of a command run through [shell], in the script's two
    uses of it.  If line 192 raises (the command cannot be split or
    started), that error comes out of the loop, with or without [fail], and
    nothing is started or printed.  If the command starts and its output
    stops being UTF-8, the lines decoded before that are printed and the
    decoding error of line 196 comes out, with or without [fail]; the list
    comprehension loses its lines to it.  Otherwise the printing loop starts
    the command once and prints every line, in order, before the return code
    is looked at, and then exits with that code exactly when [fail] is set
    and the code is not 0; the list comprehension gives the lines only when
    the loop would end normally, and loses them to the exit otherwise. *)
Theorem shell_prints_then_exits (w : world) (cmd : string) (fail : bool)
        (h : trace) :
  match popen w h cmd with
  | Started lines code =>
      snd (for_in w (shell cmd fail) print h)
      = (h ++ Spawn cmd :: map Stdout lines)%list /\
      (fst (for_in w (shell cmd fail) print h) = Raise (SystemExit code) <->
       fail = true /\ code <> 0%Z) /\
      (fst (for_in w (shell cmd fail) print h) = Ok tt <->
       fail = false \/ code = 0%Z) /\
      snd (collect w (shell cmd fail) h) = (h ++ [Spawn cmd])%list /\
      (fst (collect w (shell cmd fail) h) = Ok lines <->
       fail = false \/ code = 0%Z) /\
      (fst (collect w (shell cmd fail) h) = Raise (SystemExit code) <->
       fail = true /\ code <> 0%Z)
  | Garbled lines msg =>
      for_in w (shell cmd fail) print h
      = (Raise (UnicodeDecodeError msg),
         (h ++ Spawn cmd :: map Stdout lines)%list) /\
      collect w (shell cmd fail) h
      = (Raise (UnicodeDecodeError msg), (h ++ [Spawn cmd])%list)
  | NotSplit msg =>
      for_in w (shell cmd fail) print h = (Raise (ValueError msg), h) /\
      collect w (shell cmd fail) h = (Raise (ValueError msg), h)
  | NotSpawned msg =>
      for_in w (shell cmd fail) print h = (Raise (OSError msg), h) /\
      collect w (shell cmd fail) h = (Raise (OSError msg), h)
  end.
Proof.
  unfold for_in, collect, bind, start, finish, shell, raise, ret.
  cbn [gen_cmd gen_fail fst snd].
  destruct (popen w h cmd) as [lines code|lines msg|msg|msg];
    [| |split; reflexivity..].
  2: { cbn [fst snd]. rewrite for_each_print_run.
       rewrite <- app_assoc. cbn [app]. split; reflexivity. }
  cbn [fst snd]. rewrite for_each_print_run.
  rewrite <- app_assoc. cbn [app].
  destruct fail; cbn [andb];
    destruct (Z.eqb_spec code 0) as [Hz|Hnz]; cbn [negb fst snd].
  all: repeat (split; [reflexivity|]).
  all: intuition (try discriminate; try congruence).
Qed.

(** ** [_determine_runtime] *)

Lemma scan_ext (w1 w2 : world) (candidate : string) (lines : list string) :
  (forall p, islink w1 p = islink w2 p) ->
  scan w1 candidate lines = scan w2 candidate lines.
Proof.
  intros Hl. induction lines as [|l lines IH]; [reflexivity|].
  cbn [scan]. unfold accepts. now rewrite Hl, IH.
Qed.

(** X2: detection never looks at the exit status of [which]: two hosts that
    print the same lines and agree on symbolic links give the same answer
    and the same commands, whatever the return codes are. *)
Theorem determine_runtime_ignores_exit_status (w1 w2 : world) (h : trace) :
  (forall hh cmd, without_code (popen w1 hh cmd) = without_code (popen w2 hh cmd)) ->
  (forall p, islink w1 p = islink w2 p) ->
  _determine_runtime w1 h = _determine_runtime w2 h.
Proof.
  intros Hp Hl. rewrite !determine_runtime_run.
  assert (Hsame : forall hh cmd,
             launch_error (popen w1 hh cmd) = launch_error (popen w2 hh cmd) /\
             yielded (popen w1 hh cmd) = yielded (popen w2 hh cmd) /\
             decode_error (popen w1 hh cmd) = decode_error (popen w2 hh cmd)).
  { intros hh cmd. specialize (Hp hh cmd).
    destruct (popen w1 hh cmd), (popen w2 hh cmd); cbn in Hp;
      try discriminate; injection Hp as ?; subst; repeat split. }
  destruct (Hsame h "which docker") as (-> & -> & ->).
  destruct (Hsame (h ++ [Spawn "which docker"])%list "which podman")
    as (-> & -> & ->).
  now rewrite !(scan_ext w1 w2 _ _ Hl).
Qed.

Lemma determine_runtime_ignores_exit_status_witness :
  _determine_runtime
    (mkWorld "/root"
             (fun hh cmd => match popen (podman_host []) hh cmd with
                            | Started lines _ => Started lines 1
                            | other => other
                            end)
             (islink (podman_host [])) (fun _ _ => None) (fun _ => false)) []
  = _determine_runtime (podman_host []) [].
Proof.
  apply determine_runtime_ignores_exit_status; [|reflexivity].
  intros hh cmd. cbn [popen]. now destruct (popen (podman_host []) hh cmd).
Defined.

(** ** [generate_command_line] *)

Lemma prefix_app (a b : string) : prefix a (a ++ b) = true.
Proof.
  induction a as [|c a IH]; cbn [append prefix].
  - now destruct b.
  - destruct (ascii_dec c c); [exact IH | congruence].
Qed.

Lemma endswith_app_r (a t suffix : string) :
  endswith t suffix = true -> endswith (a ++ t) suffix = true.
Proof.
  intros H. destruct (endswith_inv _ _ H) as [p ->].
  rewrite <- append_assoc. apply endswith_app.
Qed.

Lemma bundle_refs_ok (bs : list OperatorBundle.t) :
  (forall b, In b bs -> exists i t, OperatorBundle.img b = Str i /\
                                    OperatorBundle.tag b = Str t) ->
  exists refs, bundle_refs bs = inl refs.
Proof.
  induction bs as [|b bs IH]; intros H; [now exists []|].
  destruct (H b (or_introl eq_refl)) as (i & t & Hi & Ht).
  destruct IH as [refs Hrefs]; [intros b' Hb'; apply H; now right|].
  cbn [bundle_refs]. unfold bundle_ref. rewrite Hi, Ht, Hrefs. eauto.
Qed.

Lemma bundle_refs_error (bs : list OperatorBundle.t) (b : OperatorBundle.t) :
  In b bs ->
  (exists ty, OperatorBundle.img b = NotStr ty) \/
  (exists ty, OperatorBundle.tag b = NotStr ty) ->
  exists msg, bundle_refs bs = inr msg.
Proof.
  induction bs as [|b0 bs IH]; intros Hin Hbad; [destruct Hin|].
  cbn [bundle_refs]. destruct (bundle_ref b0) as [ref|msg] eqn:Href; [|eauto].
  destruct Hin as [->|Hin].
  - exfalso. unfold bundle_ref in Href.
    destruct Hbad as [[ty Hty]|[ty Hty]]; rewrite Hty in Href;
      [discriminate|]. destruct (OperatorBundle.img b); discriminate.
  - destruct (IH Hin Hbad) as [msg ->]. eauto.
Qed.

(** X3: the builder arguments.  If some bundle's [img] or [tag] is not a
    string, [str.join] raises [TypeError] before anything is started.  When
    all are strings, the call fails exactly as the runtime detection does,
    with the same error and after the same commands; otherwise the result
    starts with the [index add] subcommand and the detected build tool and
    ends with [--tag] and the configured index reference, so that text
    appended to it extends the index tag.  With no bundles the [--bundles]
    value is empty. *)
Theorem generate_command_line_shape (w : world) (s : OperatorIndexSettings)
        (h : trace) :
  (forall b,
      In b (bundles s) ->
      (exists ty, OperatorBundle.img b = NotStr ty) \/
      (exists ty, OperatorBundle.tag b = NotStr ty) ->
      exists msg, generate_command_line w s h = (Raise (TypeError msg), h)) /\
  ((forall b, In b (bundles s) ->
              exists i t, OperatorBundle.img b = Str i /\
                          OperatorBundle.tag b = Str t) ->
   match _determine_runtime w h with
   | (Raise e, h') => generate_command_line w s h = (Raise e, h')
   | (Ok runtime, h') =>
       exists args,
         generate_command_line w s h = (Ok args, h') /\
         prefix (" index add --build-tool " ++ runtime ++ " --bundles ") args
         = true /\
         endswith args (" --tag " ++ configured_tag s) = true /\
         (bundles s = [] ->
          args = " index add --build-tool " ++ runtime ++ " --bundles  --tag " ++
                 configured_tag s)
   end).
Proof.
  rewrite generate_command_line_run. split.
  - intros b Hin Hbad. destruct (bundle_refs_error _ _ Hin Hbad) as [msg ->].
    eauto.
  - intros Hstr. destruct (bundle_refs_ok _ Hstr) as [refs Hrefs].
    rewrite Hrefs.
    destruct (_determine_runtime w h) as [[runtime|e] h']; [|reflexivity].
    eexists. split; [reflexivity|]. split; [|split].
    + rewrite <- (append_assoc runtime " --bundles " _).
      rewrite <- (append_assoc " index add --build-tool "
                               (runtime ++ " --bundles ") _).
      apply prefix_app.
    + do 4 apply endswith_app_r. apply endswith_refl.
    + intros Hnil. rewrite Hnil in Hrefs. injection Hrefs as <-. reflexivity.
Qed.

Example generate_command_line_missing_tag :
  generate_command_line (docker_host [])
    (settings_of [OperatorBundle.mk (Some "a") (Str "a") (NotStr "NoneType")]
                 "idx" "v1") []
  = (Raise (TypeError "sequence item 1: expected str instance, NoneType found"),
     []).
Proof. reflexivity. Qed.

(** ** [do_build] *)

Lemma append_nil_r (a : string) : a ++ "" = a.
Proof. induction a as [|c a IH]; cbn [append]; [reflexivity | now rewrite IH]. Qed.

Lemma do_build_run (w : world) (s : OperatorIndexSettings)
      (tag_extension : option string) (opm_version : string) (h : trace) :
  match install w h opm_version with
  | Some e =>
      do_build w s tag_extension opm_version h
      = (Raise e, (h ++ [InstallOpm opm_version])%list)
  | None =>
      match bundle_refs (bundles s) with
      | inr msg =>
          do_build w s tag_extension opm_version h
          = (Raise (TypeError msg), (h ++ [InstallOpm opm_version])%list)
      | inl _ =>
          match _determine_runtime w (h ++ [InstallOpm opm_version])%list with
          | (Raise e, h') =>
              do_build w s tag_extension opm_version h = (Raise e, h')
          | (Ok runtime, h') =>
              exists cmd,
                do_build w s tag_extension opm_version h
                = for_in w (shell cmd true) print h' /\
                prefix (opm_path w ++ " index add --build-tool " ++ runtime ++
                        " --bundles ") cmd = true /\
                endswith cmd (" --tag " ++ configured_tag s ++
                              match tag_extension with
                              | Some ext => "-" ++ ext
                              | None => ""
                              end) = true
          end
      end
  end.
Proof.
  rewrite do_build_unfold.
  destruct (install w h opm_version) as [e|]; [reflexivity|].
  rewrite generate_command_line_run.
  destruct (bundle_refs (bundles s)) as [refs|msg]; [|reflexivity].
  destruct (_determine_runtime w _) as [[runtime|e] h']; [|reflexivity].
  eexists. split; [reflexivity|].
  unfold configured_tag. destruct tag_extension as [ext|].
  - rewrite !append_assoc. split.
    + rewrite !prefix_skip. apply prefix_app.
    + do 5 apply endswith_app_r. apply endswith_refl.
  - rewrite append_nil_r, ?append_assoc. split.
    + rewrite !prefix_skip. apply prefix_app.
    + do 5 apply endswith_app_r. apply endswith_refl.
Qed.

(** X4: [do_build] runs the installer, then renders the arguments, then
    detects the runtime, then starts the builder.  If the installer raises,
    no subprocess is started; so too if a bundle's [img] or [tag] is not a
    string ([TypeError]); if no runtime is found, the builder is not
    started.  Otherwise the one command left is [opm_path] followed by the
    generated arguments, ending with [--tag {img}:{tag}], extended by
    [-{extension}] when one is given: if line 192 raises for it, that error
    ends the command with nothing more started; if its output stops being
    UTF-8, what was decoded is printed and the decoding error ends the
    command; if not, its output is printed and the command exits with the
    builder's return code when that is not 0. *)
Theorem do_build_steps (w : world) (s : OperatorIndexSettings)
        (tag_extension : option string) (opm_version : string) (h : trace) :
  match install w h opm_version with
  | Some e =>
      do_build w s tag_extension opm_version h
      = (Raise e, (h ++ [InstallOpm opm_version])%list)
  | None =>
      (forall b,
          In b (bundles s) ->
          (exists ty, OperatorBundle.img b = NotStr ty) \/
          (exists ty, OperatorBundle.tag b = NotStr ty) ->
          exists msg,
            do_build w s tag_extension opm_version h
            = (Raise (TypeError msg), (h ++ [InstallOpm opm_version])%list)) /\
      ((forall b, In b (bundles s) ->
                  exists i t, OperatorBundle.img b = Str i /\
                              OperatorBundle.tag b = Str t) ->
       match _determine_runtime w (h ++ [InstallOpm opm_version])%list with
       | (Raise e, h') =>
           do_build w s tag_extension opm_version h = (Raise e, h')
       | (Ok runtime, h') =>
           exists cmd,
             prefix (opm_path w ++ " index add --build-tool " ++ runtime ++
                     " --bundles ") cmd = true /\
             endswith cmd (" --tag " ++ configured_tag s ++
                           match tag_extension with
                           | Some ext => "-" ++ ext
                           | None => ""
                           end) = true /\
             do_build w s tag_extension opm_version h
             = match popen w h' cmd with
               | Started lines code =>
                   ((if (code =? 0)%Z then Ok tt else Raise (SystemExit code)),
                    (h' ++ Spawn cmd :: map Stdout lines)%list)
               | Garbled lines msg =>
                   (Raise (UnicodeDecodeError msg),
                    (h' ++ Spawn cmd :: map Stdout lines)%list)
               | NotSplit msg => (Raise (ValueError msg), h')
               | NotSpawned msg => (Raise (OSError msg), h')
               end
       end)
  end.
Proof.
  assert (H := do_build_run w s tag_extension opm_version h).
  destruct (install w h opm_version) as [e|]; [exact H|]. split.
  - intros b Hin Hbad. destruct (bundle_refs_error _ _ Hin Hbad) as [msg Hmsg].
    rewrite Hmsg in H. eauto.
  - intros Hstr. destruct (bundle_refs_ok _ Hstr) as [refs Hrefs].
    rewrite Hrefs in H.
    destruct (_determine_runtime w (h ++ [InstallOpm opm_version])%list)
      as [[runtime|e] h']; [|exact H].
    destruct H as (cmd & Hrun & Hpre & Hsuf). exists cmd.
    rewrite Hrun, for_in_print_run. auto.
Qed.

Example do_build_unbalanced_extension :
  do_build (mkWorld "/root"
                    (fun hh cmd =>
                       if endswith cmd "-a'b"
                       then NotSplit "No closing quotation"
                       else popen (docker_host []) hh cmd)
                    (fun _ => false) (fun _ _ => None) (fun _ => false))
           idx_v1 (Some "a'b") "latest" []
  = (Raise (ValueError "No closing quotation"),
     [InstallOpm "latest"; Spawn "which docker"]).
Proof. reflexivity. Qed.

(** ** [push]: from detection to the working tag *)

Lemma resolve_cases (B : string) (E : option string) (L : list string) :
  (exists e, E = Some e /\ In (B ++ "-" ++ e) L /\
             resolve B E L = (true, B ++ "-" ++ e)) \/
  ((forall e, E = Some e -> ~ In (B ++ "-" ++ e) L) /\ In B L /\
   resolve B E L = (true, B)) \/
  ((forall e, E = Some e -> ~ In (B ++ "-" ++ e) L) /\ ~ In B L /\
   resolve B E L = (false, B)).
Proof.
  destruct E as [e|].
  - destruct (in_dec string_dec (B ++ "-" ++ e) L) as [He|He].
    + left. exists e. auto using resolve_extended_hit.
    + right. assert (Hall : forall e0, Some e = Some e0 -> ~ In (B ++ "-" ++ e0) L).
      { intros e0 [= <-]. exact He. }
      destruct (in_dec string_dec B L) as [HB|HB].
      * left. auto using resolve_plain_fallback.
      * right. auto using resolve_not_found.
  - right. assert (Hall : forall e0, @None string = Some e0 ->
                                     ~ In (B ++ "-" ++ e0) L) by discriminate.
    destruct (in_dec string_dec B L) as [HB|HB].
    + left. split; [exact Hall|]. split; [exact HB|].
      unfold resolve. cbn [negb]. now apply find_plain_true in HB as ->.
    + right. auto using resolve_not_found.
Qed.

Lemma acquire_found (w : world) (s : OperatorIndexSettings) (runtime : string)
      (E : option string) (build : bool) (B : string) (h : trace) :
  (acquire w s runtime E build true B h = (Ok B, h) /\
   (forall e, E = Some e -> e = "" \/ endswith B ("-" ++ e) = true)) \/
  (exists e, E = Some e /\ e <> "" /\ endswith B ("-" ++ e) = false /\
             acquire w s runtime E build true B h = (Ok (B ++ "-" ++ e), h)).
Proof.
  destruct E as [e|].
  - destruct (String.eqb_spec e "") as [->|Hne].
    + left. split; [reflexivity|]. intros e [= <-]. now left.
    + destruct (endswith B ("-" ++ e)) eqn:Hsuf.
      * left. split; [now apply acquire_keep|]. intros e0 [= <-]. now right.
      * right. exists e. auto using acquire_retag.
  - left. split; [reflexivity | discriminate].
Qed.

(** The first two steps of [push] decide whether anything else runs. *)
Lemma prepare_cases (w : world) (s : OperatorIndexSettings)
      (E : option string) (build : bool) (h : trace) :
  match _determine_runtime w h with
  | (Raise e, h1) => prepare w s E build h = (Raise e, h1)
  | (Ok runtime, h1) =>
      let h2 := (h1 ++ [Spawn (images_cmd runtime)])%list in
      match popen w h1 (images_cmd runtime) with
      | Started images code =>
          if (code =? 0)%Z then
            prepare w s E build h =
            (built_tag <- acquire w s runtime E build
                            (fst (resolve (configured_tag s) E images))
                            (snd (resolve (configured_tag s) E images)) ;;
             ret (runtime, built_tag)) h2
          else prepare w s E build h = (Raise (SystemExit code), h2)
      | Garbled _ msg =>
          prepare w s E build h = (Raise (UnicodeDecodeError msg), h2)
      | NotSplit msg => prepare w s E build h = (Raise (ValueError msg), h1)
      | NotSpawned msg => prepare w s E build h = (Raise (OSError msg), h1)
      end
  end.
Proof.
  destruct (_determine_runtime w h) as [[runtime|e] h1] eqn:Hrt.
  - cbv zeta.
    destruct (popen w h1 (images_cmd runtime))
      as [images code|images msg|msg|msg] eqn:Himg.
    + destruct (Z.eqb_spec code 0) as [->|Hnz].
      * now apply prepare_run.
      * unfold prepare, bind. rewrite Hrt.
        unfold collect, bind, start, shell, finish. cbn [gen_cmd gen_fail andb].
        rewrite Himg. cbn [snd fst]. apply Z.eqb_neq in Hnz. now rewrite Hnz.
    + unfold prepare, bind. rewrite Hrt.
      unfold collect, bind, start, shell, finish. cbn [gen_cmd].
      now rewrite Himg.
    + unfold prepare, bind. rewrite Hrt.
      unfold collect, bind, start, shell. cbn [gen_cmd]. now rewrite Himg.
    + unfold prepare, bind. rewrite Hrt.
      unfold collect, bind, start, shell. cbn [gen_cmd]. now rewrite Himg.
  - unfold prepare, bind. now rewrite Hrt.
Qed.

(** After a successful listing, [push] is [acquire] followed by [publish]. *)
Lemma push_run (w : world) (s : OperatorIndexSettings)
      (E : option string) (extra_tag : list string) (build : bool)
      (h h1 : trace) (runtime : string) (images : list string) :
  _determine_runtime w h = (Ok runtime, h1) ->
  popen w h1 (images_cmd runtime) = Started images 0 ->
  push w s E extra_tag build h =
  match acquire w s runtime E build
                (fst (resolve (configured_tag s) E images))
                (snd (resolve (configured_tag s) E images))
                (h1 ++ [Spawn (images_cmd runtime)])%list with
  | (Ok W, h') => publish w s runtime W extra_tag h'
  | (Raise e, h') => (Raise e, h')
  end.
Proof.
  intros Hrt Himg. unfold push. unfold bind at 1.
  rewrite (prepare_run w s E build h h1 runtime images Hrt Himg).
  unfold bind, ret. destruct (acquire _ _ _ _ _ _ _ _) as [[W|e] h']; reflexivity.
Qed.

(** X5: [push] gives up before listing, building, tagging or pushing when no
    runtime is found, and before building, tagging or pushing when the image
    listing exits with a code other than 0: that code becomes the exit
    status, and the listing is the last command started.  If the listing
    cannot be started, the error of line 192 ends the run in the same way,
    and so does the decoding error of line 196 if its output is not
    UTF-8. *)
Theorem push_stops_early (w : world) (s : OperatorIndexSettings)
        (E : option string) (extra_tag : list string) (build : bool)
        (h : trace) :
  (forall e h1,
      _determine_runtime w h = (Raise e, h1) ->
      push w s E extra_tag build h = (Raise e, h1)) /\
  (forall runtime h1 lines code,
      _determine_runtime w h = (Ok runtime, h1) ->
      popen w h1 (images_cmd runtime) = Started lines code ->
      code <> 0%Z ->
      push w s E extra_tag build h
      = (Raise (SystemExit code), (h1 ++ [Spawn (images_cmd runtime)])%list)) /\
  (forall runtime h1 e,
      _determine_runtime w h = (Ok runtime, h1) ->
      launch_error (popen w h1 (images_cmd runtime)) = Some e ->
      push w s E extra_tag build h = (Raise e, h1)) /\
  (forall runtime h1 e,
      _determine_runtime w h = (Ok runtime, h1) ->
      decode_error (popen w h1 (images_cmd runtime)) = Some e ->
      push w s E extra_tag build h
      = (Raise e, (h1 ++ [Spawn (images_cmd runtime)])%list)).
Proof.
  assert (H := prepare_cases w s E build h). split; [|split; [|split]].
  - intros e h1 Hd. rewrite Hd in H. unfold push, bind. now rewrite H.
  - intros runtime h1 lines code Hd Hl Hnz. rewrite Hd in H. cbv zeta in H.
    rewrite Hl in H. apply Z.eqb_neq in Hnz. rewrite Hnz in H.
    unfold push, bind. now rewrite H.
  - intros runtime h1 e Hd He. rewrite Hd in H. cbv zeta in H.
    unfold push, bind.
    destruct (popen w h1 (images_cmd runtime)); cbn in He;
      try discriminate; injection He as <-; now rewrite H.
  - intros runtime h1 e Hd He. rewrite Hd in H. cbv zeta in H.
    unfold push, bind.
    destruct (popen w h1 (images_cmd runtime)); cbn in He;
      try discriminate; injection He as <-; now rewrite H.
Qed.

Example push_stops_early_no_runtime :
  push bare_host idx_v1 (Some "ci") ["latest"] true []
  = (Raise NoRuntimeFound, [Spawn "which docker"; Spawn "which podman"]).
Proof. reflexivity. Qed.

(** A listing whose first line is not UTF-8 ends the run on line 196. *)
Example push_listing_not_utf8 :
  push (mkWorld "/root"
                (fun hh cmd =>
                   if prefix "docker images " cmd
                   then Garbled [] "'utf-8' codec can't decode byte 0xff in position 0: invalid start byte"
                   else popen (docker_host []) hh cmd)
                (fun _ => false) (fun _ _ => None) (fun _ => false))
       idx_v1 None [] true []
  = (Raise (UnicodeDecodeError
              "'utf-8' codec can't decode byte 0xff in position 0: invalid start byte"),
     [Spawn "which docker";
      Spawn "docker images --format '{{.Repository}}:{{.Tag}}'"]).
Proof. reflexivity. Qed.

(** X6: with the build flag off, and once the runtime is known and the
    images are listed, [push] raises [ImageNotFound] exactly when the list
    holds neither the configured reference nor, if an extension was given,
    the extended one; and then nothing was started after the listing. *)
Theorem push_no_build_ImageNotFound_iff (w : world) (s : OperatorIndexSettings)
        (E : option string) (extra_tag : list string)
        (h h1 : trace) (runtime : string) (images : list string) :
  _determine_runtime w h = (Ok runtime, h1) ->
  popen w h1 (images_cmd runtime) = Started images 0 ->
  (fst (push w s E extra_tag false h) = Raise ImageNotFound <->
   ~ In (configured_tag s) images /\
   (forall e, E = Some e -> ~ In (configured_tag s ++ "-" ++ e) images)) /\
  (fst (push w s E extra_tag false h) = Raise ImageNotFound ->
   snd (push w s E extra_tag false h)
   = (h1 ++ [Spawn (images_cmd runtime)])%list).
Proof.
  intros Hrt Himg.
  rewrite (push_run w s E extra_tag false h h1 runtime images Hrt Himg).
  destruct (resolve_cases (configured_tag s) E images)
    as [(e & HE & Hin & Hres)|[(Hall & Hin & Hres)|(Hall & Hnin & Hres)]];
    rewrite Hres; cbn [fst snd].
  - destruct (acquire_found w s runtime E false (configured_tag s ++ "-" ++ e)
                (h1 ++ [Spawn (images_cmd runtime)])%list)
      as [[-> _]|(e' & _ & _ & _ & ->)].
    all: split; [|intros H; exfalso; revert H; apply publish_not_ImageNotFound].
    all: split; [intros H; exfalso; revert H; apply publish_not_ImageNotFound|].
    all: intros [_ H]; exfalso; exact (H e HE Hin).
  - destruct (acquire_found w s runtime E false (configured_tag s)
                (h1 ++ [Spawn (images_cmd runtime)])%list)
      as [[-> _]|(e' & _ & _ & _ & ->)].
    all: split; [|intros H; exfalso; revert H; apply publish_not_ImageNotFound].
    all: split; [intros H; exfalso; revert H; apply publish_not_ImageNotFound|].
    all: intros [H _]; exfalso; exact (H Hin).
  - rewrite acquire_missing_no_build. cbn [fst snd].
    split; [|reflexivity]. split; [intros _; split; assumption | reflexivity].
Qed.

Lemma push_no_build_ImageNotFound_iff_witness :
  fst (push (docker_host ["other:1"]) idx_v1 (Some "ci") ["latest"] false [])
  = Raise ImageNotFound.
Proof.
  apply (push_no_build_ImageNotFound_iff (docker_host ["other:1"]) idx_v1
           (Some "ci") ["latest"] [] [Spawn "which docker"] "docker"
           ["other:1"]).
  - reflexivity.
  - reflexivity.
  - split.
    + intros [H|[]]. discriminate H.
    + intros e [= <-] [H|[]]. discriminate H.
Defined.

Lemma build_invoked_spawn (h : trace) (cmd : string) :
  build_invoked (h ++ [Spawn cmd])%list = build_invoked h.
Proof. rewrite build_invoked_app. apply orb_false_r. Qed.

Lemma prepare_no_build_trace (w : world) (s : OperatorIndexSettings)
      (E : option string) (h : trace) :
  build_invoked (snd (prepare w s E false h)) = build_invoked h.
Proof.
  assert (H := prepare_cases w s E false h).
  assert (Hd := determine_runtime_trace w h).
  destruct (_determine_runtime w h) as [[runtime|e] h1]; cbn [snd] in Hd.
  - cbv zeta in H.
    destruct (popen w h1 (images_cmd runtime))
      as [images code|images msg|msg|msg];
      [|rewrite H; cbn [snd]; now rewrite build_invoked_spawn
       |now rewrite H|now rewrite H].
    destruct (code =? 0)%Z; rewrite H; clear H.
    + unfold bind.
      destruct (resolve_cases (configured_tag s) E images)
        as [(e & _ & _ & Hres)|[(_ & _ & Hres)|(_ & _ & Hres)]];
        rewrite Hres; cbn [fst snd].
      * destruct (acquire_found w s runtime E false
                    (configured_tag s ++ "-" ++ e)
                    (h1 ++ [Spawn (images_cmd runtime)])%list)
          as [[-> _]|(e' & _ & _ & _ & ->)]; unfold ret; cbn [snd];
          now rewrite build_invoked_spawn.
      * destruct (acquire_found w s runtime E false (configured_tag s)
                    (h1 ++ [Spawn (images_cmd runtime)])%list)
          as [[-> _]|(e' & _ & _ & _ & ->)]; unfold ret; cbn [snd];
          now rewrite build_invoked_spawn.
      * rewrite acquire_missing_no_build. cbn [snd].
        now rewrite build_invoked_spawn.
    + cbn [snd]. now rewrite build_invoked_spawn.
  - now rewrite H.
Qed.

(** X7: with the build flag off ([--no-build]) the build is never entered,
    on any host and for any request: neither the installer nor the builder
    runs, whatever else happens. *)
Theorem push_no_build_never_builds (w : world) (s : OperatorIndexSettings)
        (E : option string) (extra_tag : list string) (h : trace) :
  build_invoked (snd (push w s E extra_tag false h)) = build_invoked h.
Proof.
  assert (Hp := prepare_no_build_trace w s E h).
  unfold push, bind.
  destruct (prepare w s E false h) as [[[runtime W]|e] h']; cbn [fst snd] in *.
  - destruct (publish_shape w s runtime W extra_tag h')
      as (_ & _ & _ & _ & -> & _). exact Hp.
  - exact Hp.
Qed.

Lemma acquire_result (w : world) (s : OperatorIndexSettings) (runtime : string)
      (E : option string) (build found : bool) (B W : string) (h h' : trace) :
  acquire w s runtime E build found B h = (Ok W, h') ->
  (E = None -> W = B) /\
  (forall e, E = Some e ->
             W = B ++ "-" ++ e \/
             (W = B /\ found = true /\ (e = "" \/ endswith B ("-" ++ e) = true))).
Proof.
  destruct found.
  - destruct (acquire_found w s runtime E build B h)
      as [[-> Hk]|(e & -> & _ & _ & ->)]; intros [= <- <-].
    + split; [reflexivity|]. intros e He. right. auto.
    + split; [discriminate|]. intros e' [= <-]. now left.
  - unfold acquire. cbn [negb]. destruct build; [|discriminate].
    unfold bind. destruct (do_build w s E "latest" h) as [[[]|e] hb];
      [|discriminate].
    destruct E as [e|]; unfold ret; intros [= <- <-].
    + split; [discriminate|]. intros e' [= <-]. now left.
    + split; [reflexivity | discriminate].
Qed.

(** X8: whenever the steps before tagging succeed, the runtime is docker or
    podman and the working tag is the configured reference, possibly with
    ["-{extension}"] appended.  Without an extension it is the configured
    reference itself; with one, the plain reference is kept only when the
    extension is empty or the reference already ends with it.  So a working
    tag for a non-empty extension always ends with ["-{extension}"]. *)
Theorem prepare_working_tag (w : world) (s : OperatorIndexSettings)
        (E : option string) (build : bool) (h h' : trace)
        (runtime W : string) :
  prepare w s E build h = (Ok (runtime, W), h') ->
  (runtime = "docker" \/ runtime = "podman") /\
  (E = None -> W = configured_tag s) /\
  (forall e, E = Some e ->
             W = configured_tag s ++ "-" ++ e \/
             (W = configured_tag s /\
              (e = "" \/ endswith (configured_tag s) ("-" ++ e) = true))) /\
  (forall e, E = Some e -> e <> "" -> endswith W ("-" ++ e) = true).
Proof.
  intros Hprep. assert (H := prepare_cases w s E build h).
  assert (Hrt : exists h1, _determine_runtime w h = (Ok runtime, h1) /\
                           (runtime = "docker" \/ runtime = "podman") /\
                           exists found B0,
                             acquire w s runtime E build found B0
                                     (h1 ++ [Spawn (images_cmd runtime)])%list
                             = (Ok W, h') /\
                             (B0 = configured_tag s \/
                              exists e, E = Some e /\ found = true /\
                                        B0 = configured_tag s ++ "-" ++ e)).
  { destruct (determine_runtime_cases w h)
      as [[h1 Hd]|[[h1 Hd]|(e0 & h1 & Hd)]];
      rewrite Hd in H; [| |congruence].
    all: cbv zeta in H;
      destruct (popen w h1 _) as [images code|images msg|msg|msg];
      [|congruence..];
      destruct (code =? 0)%Z; [|congruence].
    all: rewrite H in Hprep; unfold bind in Hprep.
    all: match type of Hprep with
         | context [acquire ?w ?s ?r ?E ?b ?f ?B ?hh] =>
             destruct (acquire w s r E b f B hh) as [[W0|e0] h0] eqn:Hacq;
             [|discriminate]
         end.
    all: unfold ret in Hprep; injection Hprep as <- <- <-.
    all: exists h1; split; [exact Hd|]; split; [auto|].
    all: do 2 eexists; split; [exact Hacq|].
    all: match goal with
         | |- context [resolve ?B ?E ?L] =>
             destruct (resolve_cases B E L)
               as [(e & HE & _ & ->)|[(_ & _ & ->)|(_ & _ & ->)]]
         end; cbn [fst snd]; eauto. }
  destruct Hrt as (h1 & _ & Hname & found & B0 & Hacq & HB0).
  split; [exact Hname|].
  destruct (acquire_result _ _ _ _ _ _ _ _ _ _ Hacq) as [Hnone Hsome].
  assert (Hshape : forall e, E = Some e ->
             W = configured_tag s ++ "-" ++ e \/
             (W = configured_tag s /\
              (e = "" \/ endswith (configured_tag s) ("-" ++ e) = true))).
  { intros e HE. destruct HB0 as [->|(e' & HE' & -> & ->)].
    - destruct (Hsome e HE) as [->|(-> & _ & Hk)]; auto.
    - assert (e' = e) by congruence. subst e'.
      destruct (acquire_found w s runtime E build (configured_tag s ++ "-" ++ e)
                  (h1 ++ [Spawn (images_cmd runtime)])%list)
        as [[Heq _]|(e2 & HE2 & _ & Hsuf & _)].
      + rewrite Heq in Hacq. injection Hacq as <- _. now left.
      + assert (e2 = e) by congruence. subst e2.
        rewrite endswith_app in Hsuf. discriminate. }
  split; [|split; [exact Hshape|]].
  - intros HE. destruct HB0 as [->|(e' & HE' & _)]; [auto | congruence].
  - intros e HE Hne. destruct (Hshape e HE) as [->|[-> [->|Hsuf]]].
    + apply endswith_app.
    + contradiction.
    + exact Hsuf.
Qed.

Lemma prepare_working_tag_witness :
  endswith "idx:v1-ci" ("-" ++ "ci") = true.
Proof.
  apply (prepare_working_tag (docker_host ["other:1"]) idx_v1 (Some "ci") true
           []
           [Spawn "which docker";
            Spawn "docker images --format '{{.Repository}}:{{.Tag}}'";
            InstallOpm "latest"; Spawn "which docker";
            Spawn "/root/.local/bin/opm index add --build-tool docker --bundles a:1 --tag idx:v1-ci"]
           "docker" "idx:v1-ci").
  - reflexivity.
  - reflexivity.
  - discriminate.
Defined.

(** X9: an empty extension ([--tag-extension ""]) is searched for as ["{B}-"]
    but does not count as an extension when it comes to retagging: if only
    the plain reference is listed, the working tag is the plain reference
    and nothing is built or retagged, whatever the build flag. *)
Theorem prepare_empty_extension (w : world) (s : OperatorIndexSettings)
        (build : bool) (h h1 : trace) (runtime : string)
        (images : list string) :
  _determine_runtime w h = (Ok runtime, h1) ->
  popen w h1 (images_cmd runtime) = Started images 0 ->
  In (configured_tag s) images ->
  ~ In (configured_tag s ++ "-") images ->
  prepare w s (Some "") build h
  = (Ok (runtime, configured_tag s), (h1 ++ [Spawn (images_cmd runtime)])%list).
Proof.
  intros Hrt Himg Hin Hnin.
  rewrite (prepare_run w s (Some "") build h h1 runtime images Hrt Himg).
  rewrite (resolve_plain_fallback (configured_tag s) "" images Hnin Hin).
  reflexivity.
Qed.

Lemma prepare_empty_extension_witness :
  prepare (docker_host ["idx:v1"]) idx_v1 (Some "") true []
  = (Ok ("docker", "idx:v1"),
     [Spawn "which docker";
      Spawn "docker images --format '{{.Repository}}:{{.Tag}}'"]).
Proof.
  apply (prepare_empty_extension (docker_host ["idx:v1"]) idx_v1 true []
           [Spawn "which docker"] "docker" ["idx:v1"]).
  - reflexivity.
  - reflexivity.
  - now left.
  - intros [H|[]]. discriminate H.
Defined.

(** X10: when nothing matches and the build flag is on, a successful
    preparation ends with the builder: the last command started is
    [opm_path] with [index add], it exited with code 0, and the tag it was
    asked to build is exactly the working tag that will be tagged and
    pushed. *)
Theorem prepare_builds_the_working_tag (w : world) (s : OperatorIndexSettings)
        (E : option string) (h h1 h' : trace) (runtime runtime' W : string)
        (images : list string) :
  _determine_runtime w h = (Ok runtime, h1) ->
  popen w h1 (images_cmd runtime) = Started images 0 ->
  ~ In (configured_tag s) images ->
  (forall e, E = Some e -> ~ In (configured_tag s ++ "-" ++ e) images) ->
  prepare w s E true h = (Ok (runtime', W), h') ->
  runtime' = runtime /\
  W = configured_tag s ++ match E with Some e => "-" ++ e | None => "" end /\
  exists cmd hb tool lines,
    popen w hb cmd = Started lines 0 /\
    h' = (hb ++ Spawn cmd :: map Stdout lines)%list /\
    build_invoked hb = true /\
    prefix (opm_path w ++ " index add --build-tool " ++ tool ++ " --bundles ")
           cmd = true /\
    endswith cmd (" --tag " ++ W) = true.
Proof.
  intros Hrt Himg HnB HnE Hprep.
  rewrite (prepare_run w s E true h h1 runtime images Hrt Himg) in Hprep.
  rewrite (resolve_not_found _ _ _ HnB HnE) in Hprep. cbn [fst snd] in Hprep.
  unfold bind at 1 in Hprep. unfold acquire in Hprep. cbn [negb] in Hprep.
  unfold bind at 1 in Hprep.
  set (h2 := (h1 ++ [Spawn (images_cmd runtime)])%list) in *.
  assert (Hb := do_build_run w s E "latest" h2).
  destruct (install w h2 "latest") as [e|].
  { rewrite Hb in Hprep. discriminate. }
  destruct (bundle_refs (bundles s)) as [refs|msg].
  2:{ rewrite Hb in Hprep. discriminate. }
  assert (Hd := determine_runtime_trace w (h2 ++ [InstallOpm "latest"])%list).
  destruct (_determine_runtime w (h2 ++ [InstallOpm "latest"])%list)
    as [[tool|e] hb].
  2:{ rewrite Hb in Hprep. discriminate. }
  destruct Hb as (cmd & Hrun & Hpre & Hsuf). rewrite Hrun in Hprep.
  rewrite for_in_print_run in Hprep. cbn [snd] in Hd.
  rewrite build_invoked_app in Hd. cbn in Hd. rewrite orb_true_r in Hd.
  destruct (popen w hb cmd) as [lines code|lines msg|msg|msg] eqn:Hcmd;
    [|discriminate..].
  destruct (Z.eqb_spec code 0) as [->|Hnz]; [|discriminate].
  assert (HW : W = configured_tag s ++
                   match E with Some e => "-" ++ e | None => "" end
               /\ runtime' = runtime
               /\ h' = (hb ++ Spawn cmd :: map Stdout lines)%list).
  { destruct E as [e|]; unfold ret in Hprep; injection Hprep as <- <- <-;
      rewrite ?append_nil_r; auto. }
  destruct HW as (-> & -> & ->). split; [reflexivity|]. split; [reflexivity|].
  exists cmd, hb, tool, lines. auto.
Qed.

Lemma prepare_builds_the_working_tag_witness :
  "docker" = "docker" /\
  "idx:v1-ci" = configured_tag idx_v1 ++ "-" ++ "ci" /\
  exists cmd hb tool lines,
    popen (docker_host ["other:1"]) hb cmd = Started lines 0 /\
    [Spawn "which docker";
     Spawn "docker images --format '{{.Repository}}:{{.Tag}}'";
     InstallOpm "latest"; Spawn "which docker";
     Spawn "/root/.local/bin/opm index add --build-tool docker --bundles a:1 --tag idx:v1-ci"]
    = (hb ++ Spawn cmd :: map Stdout lines)%list /\
    build_invoked hb = true /\
    prefix (opm_path (docker_host ["other:1"]) ++ " index add --build-tool " ++
            tool ++ " --bundles ") cmd = true /\
    endswith cmd (" --tag " ++ "idx:v1-ci") = true.
Proof.
  apply (prepare_builds_the_working_tag (docker_host ["other:1"]) idx_v1
           (Some "ci") [] [Spawn "which docker"]
           [Spawn "which docker";
            Spawn "docker images --format '{{.Repository}}:{{.Tag}}'";
            InstallOpm "latest"; Spawn "which docker";
            Spawn "/root/.local/bin/opm index add --build-tool docker --bundles a:1 --tag idx:v1-ci"]
           "docker" "docker" "idx:v1-ci" ["other:1"]).
  - reflexivity.
  - reflexivity.
  - intros [H|[]]. discriminate H.
  - intros e [= <-] [H|[]]. discriminate H.
  - reflexivity.
Defined.

(** ** [push]: tagging and pushing *)

Lemma run_all_failure (w : world) (cmds : list string) (h : trace) (e : exn) :
  fst (run_all w cmds h) = Raise e ->
  exists hc cmd,
    In cmd cmds /\
    ((exists lines code,
         popen w hc cmd = Started lines code /\ code <> 0%Z /\
         e = SystemExit code /\
         snd (run_all w cmds h) = (hc ++ Spawn cmd :: map Stdout lines)%list) \/
     (exists lines msg,
         popen w hc cmd = Garbled lines msg /\
         e = UnicodeDecodeError msg /\
         snd (run_all w cmds h) = (hc ++ Spawn cmd :: map Stdout lines)%list) \/
     (launch_error (popen w hc cmd) = Some e /\
      snd (run_all w cmds h) = hc)).
Proof.
  revert h. induction cmds as [|cmd cmds IH]; intros h; [discriminate|].
  unfold run_all. cbn [for_each]. unfold bind. rewrite for_in_print_run.
  destruct (popen w h cmd) as [lines code|lines msg|msg|msg] eqn:Hcmd.
  - destruct (Z.eqb_spec code 0) as [Hz|Hnz].
    + intros H. destruct (IH _ H) as (hc & c & Hin & Hrest).
      exists hc, c. split; [now right | exact Hrest].
    + cbn [fst snd]. intros [= <-]. exists h, cmd. split; [now left|].
      left. exists lines, code. auto.
  - cbn [fst snd]. intros [= <-]. exists h, cmd. split; [now left|].
    right. left. exists lines, msg. auto.
  - cbn [fst snd]. intros [= <-]. exists h, cmd. split; [now left|].
    right. right. rewrite Hcmd. auto.
  - cbn [fst snd]. intros [= <-]. exists h, cmd. split; [now left|].
    right. right. rewrite Hcmd. auto.
Qed.

Lemma tag_cmd_not_push (runtime built_tag cmd : string)
      (extra_tags : list string) :
  In cmd (tag_cmds_of runtime built_tag extra_tags) ->
  is_push runtime cmd = false.
Proof.
  unfold tag_cmds_of. intros H. apply in_map_iff in H as (t & <- & _).
  apply is_push_tag.
Qed.

Lemma filter_is_push_tags (runtime built_tag : string) (issued rest : list string)
      (extra_tags : list string) :
  tag_cmds_of runtime built_tag extra_tags = (issued ++ rest)%list ->
  filter (is_push runtime) issued = [].
Proof.
  intros Hplan.
  assert (H : forall c, In c issued -> is_push runtime c = false).
  { intros c Hc. apply (tag_cmd_not_push runtime built_tag c extra_tags).
    rewrite Hplan. apply in_or_app. now left. }
  clear Hplan. induction issued as [|c issued IH]; [reflexivity|].
  cbn [filter]. rewrite (H c (or_introl eq_refl)).
  apply IH. intros c' Hc'. apply H. now right.
Qed.

(** X11: nothing is pushed unless every local tag command went through: if
    the run of the tag commands does not complete, [push] stops there and
    has started no registry push. *)
Theorem publish_tag_failure_blocks_pushes
        (w : world) (s : OperatorIndexSettings) (runtime W : string)
        (extra_tag : list string) (h : trace) :
  fst (run_all w (tag_cmds_of runtime W (extra_tags_of s extra_tag)) h)
  <> Ok tt ->
  publish w s runtime W extra_tag h
  = run_all w (tag_cmds_of runtime W (extra_tags_of s extra_tag)) h /\
  filter (is_push runtime) (spawned (snd (publish w s runtime W extra_tag h)))
  = filter (is_push runtime) (spawned h).
Proof.
  intros Hfail. rewrite publish_unfold. unfold bind.
  destruct (run_all_shape w (tag_cmds_of runtime W (extra_tags_of s extra_tag)) h)
    as (issued & rest & Hplan & Hsp & _ & _).
  destruct (run_all w (tag_cmds_of runtime W (extra_tags_of s extra_tag)) h)
    as [[[]|e] h'] eqn:Hrun; cbn [fst snd] in *; [congruence|].
  split; [reflexivity|]. rewrite Hsp, filter_app.
  rewrite (filter_is_push_tags _ _ _ _ _ Hplan). apply app_nil_r.
Qed.

Lemma publish_tag_failure_blocks_pushes_witness :
  publish (docker_host []) idx_v1 "docker" "idx:v1" ["latest"] []
  = (Raise (SystemExit 1),
     [Spawn "docker tag idx:v1 idx:latest";
      Stdout "Error response from daemon: No such image: idx:v1"]).
Proof.
  apply (publish_tag_failure_blocks_pushes (docker_host []) idx_v1 "docker"
           "idx:v1" ["latest"] []).
  discriminate.
Defined.

(** X12: when tagging and pushing fail, it is at one of the planned tag or
    push commands, in one of three ways.  Either that command was started
    and exited with a code other than 0: the error is the exit of the
    process with that code, the command is the last one started, and its
    output was printed.  Or it was started and its output stopped being
    UTF-8: the error is the decoding error of line 196, the command is the
    last one started, and what was decoded before was printed.  Or line 192
    raised for it (it could not be split or started): that error is the
    failure, and the command was never started. *)
Theorem publish_exit_code (w : world) (s : OperatorIndexSettings)
        (runtime W : string) (extra_tag : list string) (h : trace) (e : exn) :
  fst (publish w s runtime W extra_tag h) = Raise e ->
  exists hc cmd,
    In cmd (tag_cmds_of runtime W (extra_tags_of s extra_tag) ++
            push_cmds_of runtime W (extra_tags_of s extra_tag))%list /\
    ((exists lines code,
         popen w hc cmd = Started lines code /\ code <> 0%Z /\
         e = SystemExit code /\
         snd (publish w s runtime W extra_tag h)
         = (hc ++ Spawn cmd :: map Stdout lines)%list) \/
     (exists lines msg,
         popen w hc cmd = Garbled lines msg /\
         e = UnicodeDecodeError msg /\
         snd (publish w s runtime W extra_tag h)
         = (hc ++ Spawn cmd :: map Stdout lines)%list) \/
     (launch_error (popen w hc cmd) = Some e /\
      snd (publish w s runtime W extra_tag h) = hc)).
Proof.
  rewrite publish_unfold. unfold bind.
  destruct (run_all w (tag_cmds_of runtime W (extra_tags_of s extra_tag)) h)
    as [[[]|e1] h1] eqn:Hrun.
  - intros H. destruct (run_all_failure w _ _ _ H) as (hc & c & Hin & Hrest).
    exists hc, c. split; [apply in_or_app; now right | exact Hrest].
  - cbn [fst snd]. intros [= <-].
    destruct (run_all_failure w (tag_cmds_of runtime W (extra_tags_of s extra_tag))
                h e1) as (hc & c & Hin & Hrest).
    { now rewrite Hrun. }
    exists hc, c. rewrite Hrun in Hrest. cbn [snd] in Hrest.
    split; [apply in_or_app; now left | exact Hrest].
Qed.

Lemma publish_exit_code_witness :
  exists hc cmd,
    In cmd (tag_cmds_of "docker" "idx:v1-ci" (extra_tags_of idx_v1 []) ++
            push_cmds_of "docker" "idx:v1-ci" (extra_tags_of idx_v1 []))%list /\
    ((exists lines code,
         popen (docker_host ["idx:v1"]) hc cmd = Started lines code /\
         code <> 0%Z /\
         SystemExit 1 = SystemExit code /\
         snd (publish (docker_host ["idx:v1"]) idx_v1 "docker" "idx:v1-ci" [] [])
         = (hc ++ Spawn cmd :: map Stdout lines)%list) \/
     (exists lines msg,
         popen (docker_host ["idx:v1"]) hc cmd = Garbled lines msg /\
         SystemExit 1 = UnicodeDecodeError msg /\
         snd (publish (docker_host ["idx:v1"]) idx_v1 "docker" "idx:v1-ci" [] [])
         = (hc ++ Spawn cmd :: map Stdout lines)%list) \/
     (launch_error (popen (docker_host ["idx:v1"]) hc cmd)
      = Some (SystemExit 1) /\
      snd (publish (docker_host ["idx:v1"]) idx_v1 "docker" "idx:v1-ci" [] [])
      = hc)).
Proof.
  apply (publish_exit_code (docker_host ["idx:v1"]) idx_v1 "docker" "idx:v1-ci"
           [] [] (SystemExit 1)).
  reflexivity.
Defined.

(** A working tag with a quote in it: the push cannot even be split. *)
Example publish_unbalanced_quote :
  publish (mkWorld "/root"
                   (fun hh cmd =>
                      if String.eqb cmd "docker push idx:v1-a'b"
                      then NotSplit "No closing quotation"
                      else popen (docker_host ["idx:v1-a'b"]) hh cmd)
                   (fun _ => false) (fun _ _ => None) (fun _ => false))
          idx_v1 "docker" "idx:v1-a'b" [] []
  = (Raise (ValueError "No closing quotation"), []).
Proof. reflexivity. Qed.

(** ** [config]: where the builder binary lives *)

Lemma last_char_eq (p q : string) (c d : ascii) :
  p ++ String c "" = q ++ String d "" -> c = d.
Proof.
  revert q. induction p as [|x p IH]; intros [|y q]; cbn [append].
  - now intros [= ->].
  - intros [= _ H]. destruct q; discriminate H.
  - intros [= _ H]. destruct p; discriminate H.
  - intros [= _ H]. exact (IH q H).
Qed.

Lemma endswith_slash_last (a : string) (c : ascii) :
  is_slash c = false -> endswith (a ++ String c "") "/" = false.
Proof.
  intros Hc. destruct (endswith (a ++ String c "") "/") eqn:H; [|reflexivity].
  destruct (endswith_inv _ _ H) as [p Hp]. apply last_char_eq in Hp.
  subst c. discriminate Hc.
Qed.

Lemma app_last_not_empty (a : string) (c : ascii) (t : string) :
  String.eqb (a ++ String c t) "" = false.
Proof. now destruct a. Qed.

(** Joining a name without slashes onto a path that ends in a character
    other than a slash. *)
Lemma path_join_plain (a : string) (c x : ascii) (b : string) :
  is_slash c = false -> is_slash x = false ->
  path_join (a ++ String c "") (String x b) = a ++ String c "" ++ "/" ++ String x b.
Proof.
  intros Hc Hx. unfold path_join. cbn [prefix].
  destruct (ascii_dec "/" x) as [<-|_]; [discriminate Hx|].
  rewrite app_last_not_empty, (endswith_slash_last a c Hc). cbn [orb].
  now rewrite append_assoc.
Qed.

Lemma contains_slash_app (a b : string) :
  contains_slash (a ++ b) = (contains_slash a || contains_slash b)%bool.
Proof.
  induction a as [|c a IH]; cbn [append contains_slash]; [reflexivity|].
  now rewrite IH, orb_assoc.
Qed.

Lemma all_slashes_app (a b : string) :
  all_slashes (a ++ b) = (all_slashes a && all_slashes b)%bool.
Proof.
  induction a as [|c a IH]; cbn [append all_slashes]; [reflexivity|].
  now rewrite IH, andb_assoc.
Qed.

Lemma upto_last_slash_join (d b : string) :
  contains_slash b = false -> upto_last_slash (d ++ "/" ++ b) = d ++ "/".
Proof.
  intros Hb. induction d as [|c d IH].
  - cbn. now rewrite Hb.
  - cbn [append upto_last_slash]. rewrite contains_slash_app.
    cbn [append contains_slash is_slash Ascii.eqb Bool.eqb orb].
    rewrite orb_true_r. fold (append "/" b). fold (append d ("/" ++ b)).
    now rewrite IH.
Qed.

Lemma rstrip_slashes_keep (a : string) (c : ascii) :
  is_slash c = false -> rstrip_slashes (a ++ String c "") = a ++ String c "".
Proof.
  intros Hc. induction a as [|x a IH]; cbn [append rstrip_slashes].
  - now rewrite Hc.
  - rewrite IH. now destruct a.
Qed.

Lemma rstrip_slashes_slash (s : string) :
  rstrip_slashes (s ++ "/") = rstrip_slashes s.
Proof.
  induction s as [|x s IH]; [reflexivity|].
  cbn [append rstrip_slashes]. now rewrite IH.
Qed.

Lemma dirname_join (a : string) (c : ascii) (b : string) :
  is_slash c = false -> contains_slash b = false ->
  dirname ((a ++ String c "") ++ "/" ++ b) = a ++ String c "".
Proof.
  intros Hc Hb. unfold dirname. rewrite (upto_last_slash_join _ b Hb).
  rewrite (app_last_not_empty (a ++ String c "") "/" "").
  rewrite !all_slashes_app. cbn [all_slashes]. rewrite Hc.
  cbn [andb negb]. rewrite andb_false_r. cbn [negb].
  rewrite rstrip_slashes_slash. now apply rstrip_slashes_keep.
Qed.

Lemma opm_path_from (p : string) :
  path_join (path_join (p ++ ".local") "bin") "opm" = p ++ ".local/bin/opm" /\
  dirname (p ++ ".local/bin/opm") = p ++ ".local/bin".
Proof.
  replace (p ++ ".local") with ((p ++ ".loca") ++ "l")
    by (rewrite append_assoc; reflexivity).
  rewrite path_join_plain by reflexivity.
  replace ((p ++ ".loca") ++ "l" ++ "/" ++ "bin") with ((p ++ ".local/bi") ++ "n")
    by (rewrite !append_assoc; reflexivity).
  rewrite path_join_plain by reflexivity. split.
  - rewrite !append_assoc. reflexivity.
  - replace (p ++ ".local/bin/opm")
      with (((p ++ ".local/bi") ++ "n") ++ "/" ++ "opm")
      by (rewrite !append_assoc; reflexivity).
    rewrite dirname_join by reflexivity. rewrite append_assoc. reflexivity.
Qed.

(** X13: the builder binary is [.local/bin/opm] under [$HOME]: a slash is
    put after [$HOME] unless it is empty or already ends with one (so an
    empty [$HOME] gives a relative path).  The directory that [install_opm]
    tests and creates, [dirname(opm_path)], is [.local/bin] under [$HOME]. *)
Theorem opm_path_under_home (w : world) :
  let sep := if (String.eqb (HOME w) "" || endswith (HOME w) "/")%bool
             then "" else "/" in
  opm_path w = (HOME w ++ sep) ++ ".local/bin/opm" /\
  dirname (opm_path w) = (HOME w ++ sep) ++ ".local/bin".
Proof.
  cbv zeta. unfold opm_path.
  assert (H1 : path_join (HOME w) ".local"
               = (HOME w ++ (if (String.eqb (HOME w) "" || endswith (HOME w) "/")%bool
                             then "" else "/")) ++ ".local").
  { unfold path_join. cbn [prefix].
    destruct (ascii_dec "/" ".") as [H|_]; [discriminate H|].
    destruct (String.eqb (HOME w) "" || endswith (HOME w) "/")%bool.
    - now rewrite append_nil_r.
    - now rewrite append_assoc. }
  rewrite H1. destruct (opm_path_from
    (HOME w ++ (if (String.eqb (HOME w) "" || endswith (HOME w) "/")%bool
                then "" else "/"))) as [-> Hd].
  split; [reflexivity | exact Hd].
Qed.

Example opm_path_examples :
  opm_path (docker_host []) = "/root/.local/bin/opm" /\
  opm_path (mkWorld "/home/ci/" (fun _ _ => Started [] 0) (fun _ => false)
                    (fun _ _ => None) (fun _ => false))
  = "/home/ci/.local/bin/opm" /\
  opm_path (mkWorld "" (fun _ _ => Started [] 0) (fun _ => false)
                    (fun _ _ => None) (fun _ => false)) = ".local/bin/opm".
Proof. repeat split. Qed.

(** ** [make_logger] *)

Lemma make_logger_first (dev : bool) (verbosity : option Z) (lg : logger) :
  handlers lg = [] ->
  make_logger dev verbosity lg
  = mkLogger DEBUG
             (mkHandler StreamHandler
                        match verbosity with
                        | Some v => verbosity_level v
                        | None => 40%Z
                        end
              :: if dev then [mkHandler SysLogHandler INFO] else []).
Proof. intros H. unfold make_logger. rewrite H. now destruct dev. Qed.

Lemma make_logger_again (dev : bool) (verbosity : option Z) (lg : logger)
      (level : Z) (rest : list handler) :
  handlers lg = mkHandler StreamHandler level :: rest ->
  make_logger dev verbosity lg
  = mkLogger DEBUG
             (mkHandler StreamHandler
                        match verbosity with
                        | Some v => verbosity_level v
                        | None => level
                        end
              :: rest).
Proof. intros H. unfold make_logger. rewrite H. now destruct verbosity. Qed.

Lemma make_logger_fold (calls : list (bool * option Z)) (lg : logger)
      (level : Z) (rest : list handler) :
  handlers lg = mkHandler StreamHandler level :: rest ->
  logger_level lg = DEBUG ->
  fold_left (fun lg call => make_logger (fst call) (snd call) lg) calls lg
  = mkLogger DEBUG
             (mkHandler StreamHandler
                        match last_verbosity calls with
                        | Some v => verbosity_level v
                        | None => level
                        end
              :: rest).
Proof.
  revert lg level. induction calls as [|call calls IH]; intros lg level H Hl.
  - cbn. destruct lg as [l hs]. cbn in *. now subst.
  - cbn [fold_left last_verbosity].
    rewrite (make_logger_again _ _ _ _ _ H).
    erewrite IH by reflexivity.
    destruct (last_verbosity calls); [reflexivity|]. now destruct (snd call).
Qed.

(** X14: however often [make_logger] is called in a process, the logger has
    one stderr handler, followed by a syslog handler at INFO exactly when
    [/dev/log] existed at the first call; handlers are never added again.
    The stderr level is set by the last call that gave a verbosity (a later
    call can make the logger quieter again) and is 40 if none did. *)
Theorem make_logger_calls_handlers (call : bool * option Z)
        (calls : list (bool * option Z)) :
  logger_level (make_logger_calls (call :: calls)) = DEBUG /\
  handlers (make_logger_calls (call :: calls))
  = mkHandler StreamHandler
              match last_verbosity (call :: calls) with
              | Some v => verbosity_level v
              | None => 40%Z
              end
    :: if fst call then [mkHandler SysLogHandler INFO] else [].
Proof.
  unfold make_logger_calls. cbn [fold_left last_verbosity].
  rewrite (make_logger_first _ _ fresh_logger eq_refl).
  erewrite make_logger_fold by reflexivity. cbn [logger_level handlers].
  split; [reflexivity|].
  destruct (last_verbosity calls); [reflexivity|]. now destruct (snd call).
Qed.

(** The verbosity given before the subcommand is lost: [-vvv push] logs at
    the subcommand's own level. *)
Example make_logger_group_verbosity_lost :
  handlers (make_logger_calls [(true, None); (true, Some 3%Z); (true, Some 0%Z)])
  = [mkHandler StreamHandler 40; mkHandler SysLogHandler 20].
Proof. reflexivity. Qed.

Lemma last_verbosity_In (calls : list (bool * option Z)) (v : Z) :
  last_verbosity calls = Some v -> exists call, In call calls /\ snd call = Some v.
Proof.
  induction calls as [|call calls IH]; cbn [last_verbosity]; [discriminate|].
  destruct (last_verbosity calls) as [v'|].
  - intros [= ->]. destruct (IH eq_refl) as (c & Hin & Hc).
    exists c. split; [now right | exact Hc].
  - intros H. exists call. split; [now left | exact H].
Qed.

(** X15: when every verbosity given is a count (not negative), the stderr
    level is one of 40, 30, 20 and 10; it is 40 when no call gave a
    verbosity or the last one given was 0, and 10 (everything is shown)
    exactly when the last one given was 3 or more. *)
Theorem make_logger_level_range (call : bool * option Z)
        (calls : list (bool * option Z)) :
  (forall c v, In c (call :: calls) -> snd c = Some v -> (0 <= v)%Z) ->
  exists level rest,
    handlers (make_logger_calls (call :: calls))
    = mkHandler StreamHandler level :: rest /\
    (level = 40 \/ level = 30 \/ level = 20 \/ level = 10)%Z /\
    (level = 40%Z <-> last_verbosity (call :: calls) = None \/
                      last_verbosity (call :: calls) = Some 0%Z) /\
    (level = 10%Z <-> exists v, last_verbosity (call :: calls) = Some v /\
                                (3 <= v)%Z).
Proof.
  intros Hpos.
  exists match last_verbosity (call :: calls) with
         | Some v => verbosity_level v
         | None => 40%Z
         end,
         (if fst call then [mkHandler SysLogHandler INFO] else []).
  split.
  { unfold make_logger_calls. cbn [fold_left last_verbosity].
    rewrite (make_logger_first _ _ fresh_logger eq_refl).
    erewrite make_logger_fold by reflexivity. cbn [handlers].
    destruct (last_verbosity calls); [reflexivity|]. now destruct (snd call). }
  destruct (last_verbosity (call :: calls)) as [v|] eqn:Hlast.
  - destruct (last_verbosity_In _ _ Hlast) as (c & Hin & Hc).
    assert (Hv := Hpos c v Hin Hc). unfold verbosity_level.
    split; [lia|]. split.
    + split; [intros H; right; f_equal; lia|].
      intros [H|H]; [discriminate | injection H as ->; reflexivity].
    + split; [intros H; exists v; split; [reflexivity | lia]|].
      intros (v' & [= <-] & H). lia.
  - split; [now left|]. split.
    + split; [now left | reflexivity].
    + split; [discriminate|]. intros (v' & H & _). discriminate.
Qed.

Lemma make_logger_level_range_witness :
  exists level rest,
    handlers (make_logger_calls [(false, None); (false, Some 5%Z)])
    = mkHandler StreamHandler level :: rest /\
    (level = 40 \/ level = 30 \/ level = 20 \/ level = 10)%Z /\
    (level = 40%Z <->
     last_verbosity [(false, None); (false, Some 5%Z)] = None \/
     last_verbosity [(false, None); (false, Some 5%Z)] = Some 0%Z) /\
    (level = 10%Z <->
     exists v, last_verbosity [(false, None); (false, Some 5%Z)] = Some v /\
               (3 <= v)%Z).
Proof.
  apply (make_logger_level_range (false, None) [(false, Some 5%Z)]).
  intros c v [<-|[<-|[]]]; cbn [snd]; [discriminate|]. intros [= <-]. lia.
Defined.

(** ** [install_opm] *)

Lemma install_opm_explicit_error (w : world) (fs : Installer.host)
      (version : string) (h : list Installer.op) :
  version <> "latest" ->
  fst (Installer.install_opm w fs version h)
  = Installer.Fail (Installer.UnboundLocalError "latest_opm") \/
  fst (Installer.install_opm w fs version h)
  = Installer.Fail (Installer.Failed (Installer.Mkdir (dirname (opm_path w)))).
Proof.
  intros Hv. apply String.eqb_neq in Hv.
  unfold Installer.install_opm, Installer.andthen, Installer.query,
    Installer.act, Installer.done, Installer.fail.
  rewrite Hv. cbn [fst snd].
  destruct (Installer.test fs h _); cbn [negb]; [now left|].
  destruct (Installer.refuses fs _ _); [now right | now left].
Qed.

(** X16: asking for any opm version other than ["latest"] cannot work: the
    installer raises [UnboundLocalError] for [latest_opm] (line 228 reads a
    local that only the ["latest"] branch binds), or fails to create the
    directory.  It has then done nothing but test for the directory and
    possibly create it: nothing is looked up, downloaded, written or
    linked. *)
Theorem install_opm_explicit_version_fails (w : world) (fs : Installer.host)
        (version : string) (h : list Installer.op) :
  version <> "latest" ->
  exists e ops,
    Installer.install_opm w fs version h = (Installer.Fail e, (h ++ ops)%list) /\
    ((e = Installer.UnboundLocalError "latest_opm" /\
      (ops = [Installer.IsDir (dirname (opm_path w))] \/
       ops = [Installer.IsDir (dirname (opm_path w));
              Installer.Mkdir (dirname (opm_path w))])) \/
     (e = Installer.Failed (Installer.Mkdir (dirname (opm_path w))) /\
      ops = [Installer.IsDir (dirname (opm_path w));
             Installer.Mkdir (dirname (opm_path w))])).
Proof.
  intros Hv. apply String.eqb_neq in Hv.
  unfold Installer.install_opm, Installer.andthen, Installer.query,
    Installer.act, Installer.done, Installer.fail.
  rewrite Hv. cbn [fst snd].
  destruct (Installer.test fs h _); cbn [negb].
  - do 2 eexists. split; [reflexivity|]. left. auto.
  - destruct (Installer.refuses fs _ _).
    + do 2 eexists. split; [rewrite <- app_assoc; reflexivity|]. right. auto.
    + do 2 eexists. split; [rewrite <- app_assoc; reflexivity|]. left. auto.
Qed.

Lemma install_opm_explicit_version_fails_witness :
  exists e ops,
    Installer.install_opm (docker_host []) Installer.fresh_host "1.26.4" []
    = (Installer.Fail e, ([] ++ ops)%list) /\
    ((e = Installer.UnboundLocalError "latest_opm" /\
      (ops = [Installer.IsDir (dirname (opm_path (docker_host [])))] \/
       ops = [Installer.IsDir (dirname (opm_path (docker_host [])));
              Installer.Mkdir (dirname (opm_path (docker_host [])))])) \/
     (e = Installer.Failed (Installer.Mkdir (dirname (opm_path (docker_host [])))) /\
      ops = [Installer.IsDir (dirname (opm_path (docker_host [])));
             Installer.Mkdir (dirname (opm_path (docker_host [])))])).
Proof.
  apply (install_opm_explicit_version_fails (docker_host [])
           Installer.fresh_host "1.26.4" []).
  discriminate.
Defined.

(** X17: when the latest release is already installed (the versioned binary
    exists), the installer changes nothing: after the directory step it only
    looks up the release and tests for the versioned binary.  In particular
    the [opm] link itself is neither examined nor repaired. *)
Theorem install_opm_already_installed (w : world) (fs : Installer.host)
        (v : string) (h : list Installer.op) :
  (forall hh, Installer.latest fs hh = v) ->
  (forall hh, Installer.test fs hh
                (Installer.PathExists (opm_path w ++ "-" ++ v)) = true) ->
  (forall hh, Installer.refuses fs hh
                (Installer.Mkdir (dirname (opm_path w))) = false) ->
  (forall hh, Installer.refuses fs hh
                (Installer.Latest "operator-framework/operator-registry")
              = false) ->
  Installer.install_opm w fs "latest" h
  = (Installer.Done tt,
     (h ++ Installer.IsDir (dirname (opm_path w))
        :: (if Installer.test fs h (Installer.IsDir (dirname (opm_path w)))
            then [] else [Installer.Mkdir (dirname (opm_path w))])
        ++ [Installer.Latest "operator-framework/operator-registry";
            Installer.PathExists (opm_path w ++ "-" ++ v)])%list).
Proof.
  intros Hlatest Hpresent Hmkdir Hlookup.
  unfold Installer.install_opm, Installer.andthen, Installer.query,
    Installer.act, Installer.done, Installer.fail, Installer.fetch_latest.
  cbn [String.eqb Ascii.eqb Bool.eqb fst snd].
  destruct (Installer.test fs h _); cbn [negb].
  - rewrite Hlookup, Hlatest. cbn [fst snd]. rewrite Hpresent. cbn [negb].
    rewrite <- !app_assoc. reflexivity.
  - rewrite Hmkdir, Hlookup, Hlatest. cbn [fst snd]. rewrite Hpresent.
    cbn [negb]. rewrite <- !app_assoc. reflexivity.
Qed.

Lemma install_opm_already_installed_witness :
  Installer.install_opm (docker_host []) Installer.installed_host "latest" []
  = (Installer.Done tt,
     [Installer.IsDir "/root/.local/bin";
      Installer.Latest "operator-framework/operator-registry";
      Installer.PathExists "/root/.local/bin/opm-1.26.4"]).
Proof.
  apply (install_opm_already_installed (docker_host [])
           Installer.installed_host "1.26.4" []); reflexivity.
Defined.

(** X18: a fresh install of the latest release [v], on a host where nothing
    raises: after the directory step (a test, and [mkdir] exactly when the
    test fails) the installer looks up the release, finds the versioned
    binary missing, downloads [{opm_url}{v}/linux-amd64-opm], writes exactly
    what it received to [{opm_path}-{v}], sets its mode to 0o550 and tests
    whether [opm_path] is a link.  If it is, [opm_path] is removed; if it is
    not, the installer tests whether [opm_path] exists and removes it
    exactly when it does.  It ends by linking [opm_path] to the new
    binary. *)
Theorem install_opm_fresh (w : world) (fs : Installer.host)
        (v c : string) (h : list Installer.op) :
  (forall hh, Installer.latest fs hh = v) ->
  (forall hh, Installer.test fs hh
                (Installer.PathExists (opm_path w ++ "-" ++ v)) = false) ->
  (forall hh, Installer.content fs hh
                (Installer.opm_url ++ v ++ "/linux-amd64-opm") = c) ->
  (forall hh o, Installer.refuses fs hh o = false) ->
  let dir := dirname (opm_path w) in
  let versioned := opm_path w ++ "-" ++ v in
  let pre :=
    Installer.IsDir dir
    :: if Installer.test fs h (Installer.IsDir dir) then []
       else [Installer.Mkdir dir] in
  let h1 :=
    (h ++ pre ++
       [Installer.Latest "operator-framework/operator-registry";
        Installer.PathExists versioned;
        Installer.Get (Installer.opm_url ++ v ++ "/linux-amd64-opm");
        Installer.WriteFile versioned c;
        Installer.Chmod versioned 360])%list in
  let rm :=
    if Installer.test fs h1 (Installer.IsLink (opm_path w))
    then [Installer.Remove (opm_path w)]
    else if Installer.test fs (h1 ++ [Installer.IsLink (opm_path w)])%list
                           (Installer.PathExists (opm_path w))
         then [Installer.PathExists (opm_path w); Installer.Remove (opm_path w)]
         else [Installer.PathExists (opm_path w)] in
  Installer.install_opm w fs "latest" h
  = (Installer.Done tt,
     (h1 ++ Installer.IsLink (opm_path w) :: rm ++
         [Installer.Symlink versioned (opm_path w)])%list).
Proof.
  intros Hlatest Hmissing Hcontent Hok. cbv zeta.
  unfold Installer.install_opm, Installer.andthen, Installer.query,
    Installer.act, Installer.done, Installer.fail, Installer.fetch_latest,
    Installer.get.
  cbn [String.eqb Ascii.eqb Bool.eqb fst snd].
  destruct (Installer.test fs h _); cbn [negb].
  all: rewrite ?Hok, ?Hlatest; cbn [fst snd].
  all: rewrite ?Hok, ?Hmissing; cbn [negb].
  all: rewrite ?Hok, ?Hcontent.
  all: rewrite <- ?app_assoc; cbn [app].
  all: match goal with
       | |- context [Installer.test ?f ?hh (Installer.IsLink ?p)] =>
           destruct (Installer.test f hh (Installer.IsLink p))
       end.
  all: rewrite ?Hok; rewrite <- ?app_assoc; cbn [app]; try reflexivity.
  all: match goal with
       | |- context [Installer.test ?f ?hh (Installer.PathExists (opm_path ?x))] =>
           destruct (Installer.test f hh (Installer.PathExists (opm_path x)))
       end.
  all: rewrite ?Hok; rewrite <- ?app_assoc; cbn [app]; reflexivity.
Qed.

Lemma install_opm_fresh_witness :
  Installer.install_opm (docker_host []) Installer.fresh_host "latest" []
  = (Installer.Done tt,
     [Installer.IsDir "/root/.local/bin";
      Installer.Latest "operator-framework/operator-registry";
      Installer.PathExists "/root/.local/bin/opm-1.26.4";
      Installer.Get
        "https://github.com/operator-framework/operator-registry/releases/download/v1.26.4/linux-amd64-opm";
      Installer.WriteFile "/root/.local/bin/opm-1.26.4"
        "ELF:https://github.com/operator-framework/operator-registry/releases/download/v1.26.4/linux-amd64-opm";
      Installer.Chmod "/root/.local/bin/opm-1.26.4" 360;
      Installer.IsLink "/root/.local/bin/opm";
      Installer.Remove "/root/.local/bin/opm";
      Installer.Symlink "/root/.local/bin/opm-1.26.4" "/root/.local/bin/opm"]).
Proof.
  apply (install_opm_fresh (docker_host []) Installer.fresh_host "1.26.4"
           ("ELF:" ++ Installer.opm_url ++ "1.26.4" ++ "/linux-amd64-opm") []);
    reflexivity.
Defined.

(** The same on a host where [opm_path] is a plain file, and on one where it
    does not exist: removed after the existence test, or not at all. *)
Example install_opm_fresh_plain_file :
  snd (Installer.install_opm (docker_host [])
         (Installer.mkHost
            (fun _ o => match o with
                        | Installer.IsDir _ => true
                        | Installer.PathExists p =>
                            String.eqb p "/root/.local/bin/opm"
                        | _ => false
                        end)
            (fun _ => "1.26.4") (fun _ _ => "ELF") (fun _ _ => false))
         "latest" [])
  = [Installer.IsDir "/root/.local/bin";
     Installer.Latest "operator-framework/operator-registry";
     Installer.PathExists "/root/.local/bin/opm-1.26.4";
     Installer.Get
       "https://github.com/operator-framework/operator-registry/releases/download/v1.26.4/linux-amd64-opm";
     Installer.WriteFile "/root/.local/bin/opm-1.26.4" "ELF";
     Installer.Chmod "/root/.local/bin/opm-1.26.4" 360;
     Installer.IsLink "/root/.local/bin/opm";
     Installer.PathExists "/root/.local/bin/opm";
     Installer.Remove "/root/.local/bin/opm";
     Installer.Symlink "/root/.local/bin/opm-1.26.4" "/root/.local/bin/opm"] /\
  snd (Installer.install_opm (docker_host [])
         (Installer.mkHost
            (fun _ o => match o with
                        | Installer.IsDir _ => true
                        | _ => false
                        end)
            (fun _ => "1.26.4") (fun _ _ => "ELF") (fun _ _ => false))
         "latest" [])
  = [Installer.IsDir "/root/.local/bin";
     Installer.Latest "operator-framework/operator-registry";
     Installer.PathExists "/root/.local/bin/opm-1.26.4";
     Installer.Get
       "https://github.com/operator-framework/operator-registry/releases/download/v1.26.4/linux-amd64-opm";
     Installer.WriteFile "/root/.local/bin/opm-1.26.4" "ELF";
     Installer.Chmod "/root/.local/bin/opm-1.26.4" 360;
     Installer.IsLink "/root/.local/bin/opm";
     Installer.PathExists "/root/.local/bin/opm";
     Installer.Symlink "/root/.local/bin/opm-1.26.4" "/root/.local/bin/opm"].
Proof. split; reflexivity. Qed.

(** X19: the existing [opm] is left alone until the new binary is in place:
    on any host and for any version, if the installer removed or linked
    anything, then it ended normally or failed in that very removing or
    linking.  So a failed lookup, download, write or chmod, and the
    [UnboundLocalError], never cost the user the old link. *)
Theorem install_opm_keeps_old_link (w : world) (fs : Installer.host)
        (version : string) (h : list Installer.op) :
  exists ops,
    snd (Installer.install_opm w fs version h) = (h ++ ops)%list /\
    forall o,
      In o ops ->
      (exists p, o = Installer.Remove p) \/ (exists q p, o = Installer.Symlink q p) ->
      fst (Installer.install_opm w fs version h) = Installer.Done tt \/
      (exists p, fst (Installer.install_opm w fs version h)
                 = Installer.Fail (Installer.Failed (Installer.Remove p))) \/
      (exists q p, fst (Installer.install_opm w fs version h)
                   = Installer.Fail (Installer.Failed (Installer.Symlink q p))).
Proof.
  unfold Installer.install_opm, Installer.andthen, Installer.query,
    Installer.act, Installer.done, Installer.fail, Installer.fetch_latest,
    Installer.get.
  cbn beta iota.
  repeat (match goal with
          | |- context [if negb ?b then _ else _] => destruct b
          | |- context [if ?b then _ else _] => destruct b
          end; cbn [negb fst snd]; cbn beta iota).
  all: eexists; split;
    [rewrite <- ?app_assoc; cbn [app]; try reflexivity;
     symmetry; apply app_nil_r|].
  all: cbn [In]; intros o Hin Hkind; eauto.
  all: exfalso; destruct Hkind as [[p ->]|(q & p & ->)];
    repeat (destruct Hin as [Hin|Hin]; [discriminate Hin|]); exact Hin.
Qed.

(** X20: on a host whose installer step is [install_opm] itself, [build]
    with an explicit opm version never starts a subprocess: the installer's
    error ends the command before the runtime is detected or the builder
    run. *)
Theorem do_build_explicit_opm_version (w : world) (fs : Installer.host)
        (s : OperatorIndexSettings) (tag_extension : option string)
        (opm_version : string) (h : trace) :
  opm_version <> "latest" ->
  exists what,
    do_build (with_installer w fs) s tag_extension opm_version h
    = (Raise (ExternalError what), (h ++ [InstallOpm opm_version])%list) /\
    (what = "UnboundLocalError: latest_opm" \/ what = "OSError").
Proof.
  intros Hv. assert (Hb := do_build_run (with_installer w fs) s tag_extension
                                        opm_version h).
  cbn [install with_installer] in Hb.
  destruct (install_opm_explicit_error w fs opm_version [] Hv) as [He|He];
    rewrite He in Hb; eexists; (split; [exact Hb|]); [now left | now right].
Qed.

Lemma do_build_explicit_opm_version_witness :
  exists what,
    do_build (with_installer (docker_host []) Installer.fresh_host) idx_v1
             (Some "ci") "1.26.4" []
    = (Raise (ExternalError what), ([] ++ [InstallOpm "1.26.4"])%list) /\
    (what = "UnboundLocalError: latest_opm" \/ what = "OSError").
Proof.
  apply (do_build_explicit_opm_version (docker_host []) Installer.fresh_host
           idx_v1 (Some "ci") "1.26.4" []).
  discriminate.
Defined.
